(** * rainmapping: grid index mapping, sparse tiles, colour classification and
    overlay resampling.

    A shallow embedding of the Python scripts of the repository
    (extract_data.py, generate_pngs_fixed.py, generate_pngs.py,
    generate_pngs_old_broken.py, generate_overlay_images.py,
    process_temperature.py).

    Numbers.  Python floats are modelled by exact rationals [Q]: every
    function below is the source expression read over the rationals, so a
    result stated here is the value the code computes before binary64
    rounding.  For the grid index mapper this is no idealisation: all the
    intermediate values are multiples of 0.5 far below 2^53, which binary64
    represents exactly.  Where the special values matter (the palette lookup
    of [get_color_for_temp]) the type [pyfloat] adds the infinities and NaN.
    [int(x)] truncates toward zero, [round(x)] rounds half to even, a Python
    exception is [None]. *)

From Stdlib Require Import ZArith QArith Qround Lia Lqa Ascii String.
From stdpp Require Import base option list list_numbers strings pretty gmap.

Local Open Scope Z_scope.

(** ** Python numeric primitives *)

Module Py.

(** [int(x)] on a finite float: truncation toward zero. *)
Definition int (x : Q) : Z := Z.quot (Qnum x) (Zpos (Qden x)).

(** [a < b] and [a > b] on finite floats. *)
Definition ltb (a b : Q) : bool := negb (Qle_bool b a).
Definition gtb (a b : Q) : bool := ltb b a.

(** [round(x)]: nearest integer, ties to the even one. *)
Definition round (x : Q) : Z :=
  let f := Qfloor x in
  let d := (x - inject_Z f)%Q in
  if ltb d (1 # 2) then f
  else if ltb (1 # 2) d then f + 1
  else if Z.even f then f else f + 1.

(** [round(x, 1)]: one decimal place, ties to even. *)
Definition round1 (x : Q) : Q := (inject_Z (round (x * 10)) / 10)%Q.

(** [l[i]] on a list: a negative index counts from the end, anything
    outside raises IndexError. *)
Definition index {A} (l : list A) (i : Z) : option A :=
  let n := Z.of_nat (length l) in
  if (0 <=? i) && (i <? n) then l !! Z.to_nat i
  else if (- n <=? i) && (i <? 0) then l !! Z.to_nat (n + i)
  else None.

(** [a / b] on two ints: true division, ZeroDivisionError on [b = 0]. *)
Definition truediv (a b : Z) : option Q :=
  if b =? 0 then None else Some (inject_Z a / inject_Z b)%Q.

(** [list.sort()] on finite floats: a stable insertion sort. *)
Fixpoint insert_sorted (x : Q) (l : list Q) : list Q :=
  match l with
  | [] => [x]
  | y :: l' => if ltb y x then y :: insert_sorted x l' else x :: y :: l'
  end.

Definition sort (l : list Q) : list Q := foldr insert_sorted [] l.

End Py.


(** ** Floats with their special values *)

Inductive pyfloat : Type :=
  | PFin (q : Q)
  | PosInf
  | NegInf
  | NaN.

Module PyFloat.

(** [x - k] and [x * k] with an int [k]. *)
Definition sub_int (x : pyfloat) (k : Z) : pyfloat :=
  match x with
  | PFin q => PFin (q - inject_Z k)
  | other => other
  end.

Definition mul_int (x : pyfloat) (k : Z) : pyfloat :=
  match x with
  | PFin q => PFin (q * inject_Z k)
  | PosInf => if 0 <? k then PosInf else if k <? 0 then NegInf else NaN
  | NegInf => if 0 <? k then NegInf else if k <? 0 then PosInf else NaN
  | NaN => NaN
  end.

(** [x / k] with an int [k]: ZeroDivisionError on [k = 0]. *)
Definition div_int (x : pyfloat) (k : Z) : option pyfloat :=
  if k =? 0 then None
  else Some match x with
            | PFin q => PFin (q / inject_Z k)
            | PosInf => if 0 <? k then PosInf else NegInf
            | NegInf => if 0 <? k then NegInf else PosInf
            | NaN => NaN
            end.

(** [a < b]: every comparison with NaN is False. *)
Definition ltb (a b : pyfloat) : bool :=
  match a, b with
  | NaN, _ | _, NaN => false
  | PFin x, PFin y => Py.ltb x y
  | NegInf, NegInf => false
  | NegInf, _ => true
  | _, PosInf => match a with PosInf => false | _ => true end
  | _, _ => false
  end.

(** [min(a, b)] keeps [a] unless [b < a]; [max(a, b)] keeps [a] unless
    [b > a]. *)
Definition min (a b : pyfloat) : pyfloat := if ltb b a then b else a.
Definition max (a b : pyfloat) : pyfloat := if ltb a b then b else a.

(** [int(x)]: OverflowError on an infinity, ValueError on NaN. *)
Definition int (x : pyfloat) : option Z :=
  match x with
  | PFin q => Some (Py.int q)
  | _ => None
  end.

End PyFloat.

(** ** Images *)

Definition color : Type := Z * Z * Z.
Definition rgba : Type := Z * Z * Z * Z.

(** What a run of a generator function leaves behind: an uncaught
    exception, a skipped period (no file written) or the saved image, row 0
    first. *)
Inductive outcome : Type :=
  | Raised
  | Skipped
  | Saved (img : list (list rgba)).

(** The two nested [for row in range(H): for col in range(W):] loops over a
    buffer that [np.zeros] has initialised; [px row col] is the pixel left
    at [(row, col)], [None] when the loop body raises. *)
Definition fill_image (H W : Z) (px : Z -> Z -> option rgba)
  : option (list (list rgba)) :=
  mapM (fun row => mapM (fun col => px row col) (seqZ 0 W)) (seqZ 0 H).

(** [np.flipud]. *)
Definition flipud {A} (img : list (list A)) : list (list A) := reverse img.

Definition transparent : rgba := (0, 0, 0, 0).

(** [img[row][col]]. *)
Definition pixel_of {A} (img : list (list A)) (row col : nat) : option A :=
  line ← img !! row; line !! col.

(** ** Grid index mapper and sparse serializer (extract_data.py) *)

Module ExtractData.

Definition X_MIN : Q := - (199500 # 1).
Definition X_MAX : Q := 699500 # 1.
Definition Y_MIN : Q := - (199500 # 1).
Definition Y_MAX : Q := 1249500 # 1.
Definition RESOLUTION : Z := 1000.

(** [coord_to_index(x, y)] returns [(row, col)]. *)
Definition coord_to_index (x y : Q) : Z * Z :=
  let col := Py.int ((x - X_MIN) / inject_Z RESOLUTION) in
  let row := Py.int ((Y_MAX - y) / inject_Z RESOLUTION) in
  (row, col).

(** The two quotients [coord_to_index] converts with [int]. *)
Definition col_quotient (x : Q) : Q := (x - X_MIN) / inject_Z RESOLUTION.
Definition row_quotient (y : Q) : Q := (Y_MAX - y) / inject_Z RESOLUTION.

(** [index_to_coord(row, col)] returns the cell centre [(x, y)]. *)
Definition index_to_coord (row col : Z) : Q * Q :=
  let x := (X_MIN + (inject_Z col + (1 # 2)) * inject_Z RESOLUTION)%Q in
  let y := (Y_MAX - (inject_Z row + (1 # 2)) * inject_Z RESOLUTION)%Q in
  (x, y).

(** Modelled from the spec: the number of rows and columns of the raster of
    a grid extent, which no source file defines.  The scenario of the spec
    ("x:[0,2000], y:[0,3000], resolution 1000 -> a raster of 3 rows x 2
    cols") gives (y_max - y_min) / resolution rows and
    (x_max - x_min) / resolution columns. *)
Definition grid_height : Z := Qfloor ((Y_MAX - Y_MIN) / inject_Z RESOLUTION).
Definition grid_width : Z := Qfloor ((X_MAX - X_MIN) / inject_Z RESOLUTION).

Definition index_in_grid (rc : Z * Z) : Prop :=
  (0 <= rc.1 < grid_height) /\ (0 <= rc.2 < grid_width).

(** A coordinate lies within the extent. *)
Definition in_extent (xy : Q * Q) : Prop :=
  (X_MIN <= xy.1)%Q /\ (xy.1 <= X_MAX)%Q /\ (Y_MIN <= xy.2)%Q /\ (xy.2 <= Y_MAX)%Q.

(** [np.where(~np.isnan(month_data_array))]: the cells that hold a value, in
    row-major order.  A frame is a list of rows, NaN is [None]. *)
Definition valid_cells (month_data_array : list (list (option Q)))
  : list (nat * nat * Q) :=
  mjoin (imap (fun row vals =>
           omap id (imap (fun col v => (fun q => (row, col, q)) <$> v) vals))
         month_data_array).

(** The body of the loop [for row, col in zip(rows, cols)] of
    [process_variable].  The keys are [str(int(x))] and [str(int(y))]. *)
Definition store_cell (month_data : gmap string (gmap string Q))
    (cell : nat * nat * Q) : gmap string (gmap string Q) :=
  let '(row, col, v) := cell in
  let '(x, y) := index_to_coord (Z.of_nat row) (Z.of_nat col) in
  let x_key := pretty (Py.int x) in
  let y_key := pretty (Py.int y) in
  let month_data :=
    if decide (is_Some (month_data !! x_key)) then month_data
    else <[x_key := ∅]> month_data in
  <[x_key := <[y_key := Py.round1 v]> (default ∅ (month_data !! x_key))]>
    month_data.

(** The value of a cell of the frame, [None] for NaN and outside it. *)
Definition cell_value (month_data_array : list (list (option Q)))
    (row col : nat) : option Q :=
  vals ← month_data_array !! row; mjoin (vals !! col).

(** The keys under which the cell of a row and a column is stored, the
    integer parts of its centre. *)
Definition x_key_of (col : nat) : string :=
  pretty (1000 * Z.of_nat col - 199000).
Definition y_key_of (row : nat) : string :=
  pretty (1249000 - 1000 * Z.of_nat row).

(** The sparse representation [process_variable] dumps for one month. *)
Definition sparse_month (month_data_array : list (list (option Q)))
  : gmap string (gmap string Q) :=
  foldl store_cell ∅ (valid_cells month_data_array).

End ExtractData.

(** ** Palettes and classifiers shared by the PNG generators *)

Definition TEMP_COLORS : list color :=
  [ (5, 48, 97); (33, 102, 172); (67, 147, 195); (146, 197, 222);
    (209, 229, 240); (253, 219, 199); (244, 165, 130); (214, 96, 77);
    (178, 24, 43); (103, 0, 31) ].

(** The dict [BIVARIATE_COLORS]; a key outside it raises KeyError. *)
Definition BIVARIATE_COLORS (key : Z * Z) : option color :=
  match key with
  | (0, 0) => Some (243, 243, 243)
  | (0, 1) => Some (243, 230, 179)
  | (0, 2) => Some (243, 179, 0)
  | (1, 0) => Some (180, 211, 225)
  | (1, 1) => Some (179, 179, 179)
  | (1, 2) => Some (179, 102, 0)
  | (2, 0) => Some (80, 157, 194)
  | (2, 1) => Some (55, 99, 135)
  | (2, 2) => Some (0, 0, 0)
  | _ => None
  end.

(** [get_color_for_temp(temp, min_t=-10, max_t=32)], the same text in
    generate_pngs_fixed.py, generate_pngs.py and
    generate_pngs_old_broken.py. *)
Definition temp_index (temp : pyfloat) (min_t max_t : Z) : option Z :=
  normalized ← PyFloat.div_int (PyFloat.sub_int temp min_t) (max_t - min_t);
  let clamped := PyFloat.max (PFin 0) (PyFloat.min (PFin 1) normalized) in
  i ← PyFloat.int (PyFloat.mul_int clamped (Z.of_nat (length TEMP_COLORS) - 1));
  Some (Z.min i (Z.of_nat (length TEMP_COLORS) - 1)).

Definition get_color_for_temp (temp : pyfloat) (min_t max_t : Z)
  : option color :=
  idx ← temp_index temp min_t max_t;
  Py.index TEMP_COLORS idx.

(** The value of [normalized] on the scale [-10, 32]. *)
Definition normalized_of (temp : pyfloat) : pyfloat :=
  match temp with
  | PFin q => PFin ((q - inject_Z (-10)) / inject_Z 42)
  | other => other
  end.

(** The sequential colorizer in the words of the spec:
    [normalized = clamp((value - min) / (max - min), 0, 1)] and
    [idx = floor(normalized * (N - 1))] clamped to [0, N - 1]. *)
Definition clamp (x lo hi : Q) : Q :=
  if Qle_bool x lo then lo else if Qle_bool hi x then hi else x.



(** The conditional expression
    [0 if v < b33 else (1 if v < b66 else 2)]. *)
Definition tertile_level (v b33 b66 : Q) : Z :=
  if Py.ltb v b33 then 0 else if Py.ltb v b66 then 1 else 2.

(** [get_color_for_rain_sun(rain, sun, rain33, rain66, sun33, sun66)]. *)
Definition get_color_for_rain_sun (rain sun rain33 rain66 sun33 sun66 : Q)
  : option color :=
  let rain_level := tertile_level rain rain33 rain66 in
  let sun_level := tertile_level sun sun33 sun66 in
  BIVARIATE_COLORS (rain_level, sun_level).

(** The key of the nearest stored cell,
    [str(int(round(v / 1000) * 1000))]. *)
Definition snapped (v : Q) : Z := Py.round (v / 1000) * 1000.
Definition nearest_key (v : Q) : string := pretty (snapped v).

(** Two-level lookup [data[xk][yk]], [None] where a key is absent. *)
Definition get (m : gmap string (gmap string Q)) (xk yk : string)
  : option Q :=
  inner ← m !! xk; inner !! yk.

(** [data[x_key][y_key]] guarded by
    [x_key in data and y_key in data[x_key]]. *)
Definition lookup_nearest (data : gmap string (gmap string Q))
    (bng_x bng_y : Q) : option Q :=
  inner ← data !! nearest_key bng_x;
  inner !! nearest_key bng_y.

(** [[v for x in data.values() for v in x.values()]]. *)
Definition all_values (data : gmap string (gmap string Q)) : list Q :=
  (map_to_list data).*2 ≫= (fun x => (map_to_list x).*2).

(** ** generate_pngs_fixed.py *)

(** The module-level names the generator functions read.  The script sets
    [IMG_WIDTH = 2000] and [IMG_HEIGHT = 3000] and takes the four bounds
    from pyproj; [wgs84_to_bng lng lat] is
    [wgs84_to_bng.transform(lng, lat)], [None] when the transform, or the
    rounding of a non-finite result, raises inside the [try] block. *)
Record globals : Type := Globals {
  IMG_WIDTH : Z;
  IMG_HEIGHT : Z;
  LAT_MIN : Q;
  LAT_MAX : Q;
  LNG_MIN : Q;
  LNG_MAX : Q;
  wgs84_to_bng : Q -> Q -> option (Q * Q)
}.

Module PngsFixed.
Section Generator.
Context (g : globals).

(** Lines 119-120 and 174-175: the coordinate of pixel [(row, col)]. *)
Definition pixel_latlng (row col : Z) : option (Q * Q) :=
  fr ← Py.truediv row (IMG_HEIGHT g - 1);
  let lat := (LAT_MAX g - fr * (LAT_MAX g - LAT_MIN g))%Q in
  fc ← Py.truediv col (IMG_WIDTH g - 1);
  let lng := (LNG_MIN g + fc * (LNG_MAX g - LNG_MIN g))%Q in
  Some (lat, lng).

(** The two expressions of lines 119-120 where the divisions are defined. *)
Definition lat_of (row : Z) : Q :=
  LAT_MAX g - inject_Z row / inject_Z (IMG_HEIGHT g - 1)
              * (LAT_MAX g - LAT_MIN g).
Definition lng_of (col : Z) : Q :=
  LNG_MIN g + inject_Z col / inject_Z (IMG_WIDTH g - 1)
              * (LNG_MAX g - LNG_MIN g).

(** No value for a coordinate: the reprojection fails, or the nearest
    cell is not in the data. *)
Definition no_data (data : gmap string (gmap string Q)) (lat lng : Q)
  : Prop :=
  match wgs84_to_bng g lng lat with
  | None => True
  | Some (bng_x, bng_y) => lookup_nearest data bng_x bng_y = None
  end.

(** The [try] block of [generate_temp_image]: the pixel keeps the zeros of
    [np.zeros] unless the lookup succeeds. *)
Definition temp_at (temp_data : gmap string (gmap string Q))
    (lat lng : Q) : rgba :=
  default transparent
    ('(bng_x, bng_y) ← wgs84_to_bng g lng lat;
     temp ← lookup_nearest temp_data bng_x bng_y;
     '(r, gr, b) ← get_color_for_temp (PFin temp) (-10) 32;
     Some (r, gr, b, 255)).

Definition temp_pixel (temp_data : gmap string (gmap string Q))
    (row col : Z) : option rgba :=
  '(lat, lng) ← pixel_latlng row col;
  Some (temp_at temp_data lat lng).

(** [generate_temp_image(year, month)]; the argument is what
    [load_data(year, month, 'temp')] returned. *)
Definition generate_temp_image
    (temp_data : option (gmap string (gmap string Q))) : outcome :=
  match temp_data with
  | None => Skipped
  | Some temp_data =>
      if decide (temp_data = ∅) then Skipped
      else match fill_image (IMG_HEIGHT g) (IMG_WIDTH g)
                   (temp_pixel temp_data) with
           | Some img_array => Saved img_array
           | None => Raised
           end
  end.

(** Lines 155-166: [values[n // 3]] and [values[(2 * n) // 3]] of the
    sorted values, 0 for an empty list. *)
Definition breakpoints (data : gmap string (gmap string Q))
  : option (Q * Q) :=
  let values := Py.sort (all_values data) in
  let n := Z.of_nat (length values) in
  b33 ← (if 0 <? n then Py.index values (n `div` 3) else Some 0%Q);
  b66 ← (if 0 <? n then Py.index values ((2 * n) `div` 3) else Some 0%Q);
  Some (b33, b66).

(** The [try] block of [generate_rain_sun_image]. *)
Definition rain_sun_at (rain_data sun_data : gmap string (gmap string Q))
    (rain33 rain66 sun33 sun66 : Q) (lat lng : Q) : rgba :=
  default transparent
    ('(bng_x, bng_y) ← wgs84_to_bng g lng lat;
     rain ← lookup_nearest rain_data bng_x bng_y;
     sun ← lookup_nearest sun_data bng_x bng_y;
     '(r, gr, b) ← get_color_for_rain_sun rain sun rain33 rain66 sun33 sun66;
     Some (r, gr, b, 255)).

Definition rain_sun_pixel (rain_data sun_data : gmap string (gmap string Q))
    (rain33 rain66 sun33 sun66 : Q) (row col : Z) : option rgba :=
  '(lat, lng) ← pixel_latlng row col;
  Some (rain_sun_at rain_data sun_data rain33 rain66 sun33 sun66 lat lng).

(** [generate_rain_sun_image(year, month)]. *)
Definition generate_rain_sun_image
    (rain_data sun_data : option (gmap string (gmap string Q))) : outcome :=
  match rain_data, sun_data with
  | Some rain_data, Some sun_data =>
      if decide (rain_data = ∅) then Skipped
      else if decide (sun_data = ∅) then Skipped
      else
        match breakpoints rain_data, breakpoints sun_data with
        | Some (rain33, rain66), Some (sun33, sun66) =>
            match fill_image (IMG_HEIGHT g) (IMG_WIDTH g)
                    (rain_sun_pixel rain_data sun_data
                       rain33 rain66 sun33 sun66) with
            | Some img_array => Saved img_array
            | None => Raised
            end
        | _, _ => Raised
        end
  | _, _ => Skipped
  end.

End Generator.
End PngsFixed.

(** ** generate_pngs.py *)

Module Pngs.

Definition IMG_WIDTH : Z := 2000.
Definition IMG_HEIGHT : Z := 3000.
Definition LAT_MIN : Q := 495 # 10.
Definition LAT_MAX : Q := 61 # 1.
Definition LNG_MIN : Q := - (85 # 10).
Definition LNG_MAX : Q := 2 # 1.

(** Lines 95-96 and 152-153: the coordinate of pixel [(row, col)]. *)
Definition pixel_latlng (row col : Z) : option (Q * Q) :=
  fr ← Py.truediv row IMG_HEIGHT;
  let lat := (LAT_MAX - fr * (LAT_MAX - LAT_MIN))%Q in
  fc ← Py.truediv col IMG_WIDTH;
  let lng := (LNG_MIN + fc * (LNG_MAX - LNG_MIN))%Q in
  Some (lat, lng).

(** Lines 131-144: [vals[int(len(vals) * 0.33)]] and
    [vals[int(len(vals) * 0.66)]], with 0.33 and 0.66 read as 33/100 and
    66/100; IndexError on an empty list. *)
Definition breakpoints (data : gmap string (gmap string Q))
  : option (Q * Q) :=
  let vals := Py.sort (all_values data) in
  let n := inject_Z (Z.of_nat (length vals)) in
  b33 ← Py.index vals (Py.int (n * (33 # 100)));
  b66 ← Py.index vals (Py.int (n * (66 # 100)));
  Some (b33, b66).

End Pngs.

(** ** generate_pngs_old_broken.py *)

(** Its module-level names: the image size (2000 x 3000 in the script), the
    Web Mercator bounds taken from pyproj and [mercator_to_bng.transform]. *)
Record merc_globals : Type := MercGlobals {
  M_IMG_WIDTH : Z;
  M_IMG_HEIGHT : Z;
  merc_x_min : Q;
  merc_x_max : Q;
  merc_y_min : Q;
  merc_y_max : Q;
  mercator_to_bng : Q -> Q -> option (Q * Q)
}.

Module PngsOldBroken.
Section Generator.
Context (g : merc_globals).

(** Lines 156-157 and 217-218. *)
Definition pixel_merc (row col : Z) : option (Q * Q) :=
  fr ← Py.truediv row (M_IMG_HEIGHT g);
  let merc_y := (merc_y_max g - fr * (merc_y_max g - merc_y_min g))%Q in
  fc ← Py.truediv col (M_IMG_WIDTH g);
  let merc_x := (merc_x_min g + fc * (merc_x_max g - merc_x_min g))%Q in
  Some (merc_x, merc_y).

(** Lines 194-207: [vals[int(len(vals) * 0.33)]] and
    [vals[int(len(vals) * 0.66)]], with 0.33 and 0.66 read as 33/100 and
    66/100; IndexError on an empty list. *)
Definition breakpoints (data : gmap string (gmap string Q))
  : option (Q * Q) :=
  let vals := Py.sort (all_values data) in
  let n := inject_Z (Z.of_nat (length vals)) in
  b33 ← Py.index vals (Py.int (n * (33 # 100)));
  b66 ← Py.index vals (Py.int (n * (66 # 100)));
  Some (b33, b66).

Definition rain_sun_at (rain_data sun_data : gmap string (gmap string Q))
    (rain33 rain66 sun33 sun66 : Q) (merc_x merc_y : Q) : rgba :=
  default transparent
    ('(bng_x, bng_y) ← mercator_to_bng g merc_x merc_y;
     rain ← lookup_nearest rain_data bng_x bng_y;
     sun ← lookup_nearest sun_data bng_x bng_y;
     '(r, gr, b) ← get_color_for_rain_sun rain sun rain33 rain66 sun33 sun66;
     Some (r, gr, b, 255)).

Definition rain_sun_pixel (rain_data sun_data : gmap string (gmap string Q))
    (rain33 rain66 sun33 sun66 : Q) (row col : Z) : option rgba :=
  '(merc_x, merc_y) ← pixel_merc row col;
  Some (rain_sun_at rain_data sun_data rain33 rain66 sun33 sun66
          merc_x merc_y).

(** [generate_rain_sun_image(year, month)], with the [np.flipud] of line
    239 before the image is saved. *)
Definition generate_rain_sun_image
    (rain_data sun_data : option (gmap string (gmap string Q))) : outcome :=
  match rain_data, sun_data with
  | Some rain_data, Some sun_data =>
      if decide (rain_data = ∅) then Skipped
      else if decide (sun_data = ∅) then Skipped
      else
        match breakpoints rain_data, breakpoints sun_data with
        | Some (rain33, rain66), Some (sun33, sun66) =>
            match fill_image (M_IMG_HEIGHT g) (M_IMG_WIDTH g)
                    (rain_sun_pixel rain_data sun_data
                       rain33 rain66 sun33 sun66) with
            | Some img_array => Saved (flipud img_array)
            | None => Raised
            end
        | _, _ => Raised
        end
  | _, _ => Skipped
  end.

(** The [try] block of [generate_temp_image] (lines 159-173). *)
Definition temp_at (temp_data : gmap string (gmap string Q))
    (merc_x merc_y : Q) : rgba :=
  default transparent
    ('(bng_x, bng_y) ← mercator_to_bng g merc_x merc_y;
     temp ← lookup_nearest temp_data bng_x bng_y;
     '(r, gr, b) ← get_color_for_temp (PFin temp) (-10) 32;
     Some (r, gr, b, 255)).

Definition temp_pixel (temp_data : gmap string (gmap string Q))
    (row col : Z) : option rgba :=
  '(merc_x, merc_y) ← pixel_merc row col;
  Some (temp_at temp_data merc_x merc_y).

(** [generate_temp_image(year, month)]: the buffer is saved as filled
    (line 175). *)
Definition generate_temp_image
    (temp_data : option (gmap string (gmap string Q))) : outcome :=
  match temp_data with
  | None => Skipped
  | Some temp_data =>
      if decide (temp_data = ∅) then Skipped
      else match fill_image (M_IMG_HEIGHT g) (M_IMG_WIDTH g)
                   (temp_pixel temp_data) with
           | Some img_array => Saved img_array
           | None => Raised
           end
  end.

(** The two expressions of lines 156-157 where the divisions are defined. *)
Definition merc_y_of (row : Z) : Q :=
  merc_y_max g - inject_Z row / inject_Z (M_IMG_HEIGHT g)
                 * (merc_y_max g - merc_y_min g).
Definition merc_x_of (col : Z) : Q :=
  merc_x_min g + inject_Z col / inject_Z (M_IMG_WIDTH g)
                 * (merc_x_max g - merc_x_min g).

End Generator.
End PngsOldBroken.

(** ** generate_overlay_images.py *)

Module OverlayImages.

(** Lines 76-78 of [process_temp]: the palette index of a cell that is not
    NaN.  The scale bounds are written out in the source. *)
Definition color_idx (v : pyfloat) : option Z :=
  normalized ← PyFloat.div_int (PyFloat.sub_int v (-10)) (32 - (-10));
  let clamped := PyFloat.max (PFin 0) (PyFloat.min (PFin 1) normalized) in
  i ← PyFloat.int (PyFloat.mul_int clamped (Z.of_nat (length TEMP_COLORS)));
  Some (Z.min i (Z.of_nat (length TEMP_COLORS) - 1)).

(** Lines 74-80: one cell of the image.  The palette of this script holds
    the hex strings of the triples of [TEMP_COLORS], which [hex_to_rgb]
    turns back into them. *)
Definition temp_cell (v : pyfloat) : option rgba :=
  match v with
  | NaN => Some transparent
  | _ =>
      idx ← color_idx v;
      '(r, gr, b) ← Py.index TEMP_COLORS idx;
      Some (r, gr, b, 255)
  end.

(** [process_temp(year, month)] on the month's array: the image buffer it
    hands to matplotlib, cell by cell in the order of the array. *)
Definition process_temp (temp_data : list (list pyfloat))
  : option (list (list rgba)) :=
  mapM (mapM temp_cell) temp_data.

End OverlayImages.

(** ** generate_leaflet_images.py *)

Module LeafletImages.

(** Lines 131-135, [temp_colormap(temp)] inside [process_temperature]: the
    palette index, with no [min] against the last index. *)
Definition color_idx (temp : pyfloat) : option Z :=
  normalized ← PyFloat.div_int (PyFloat.sub_int temp (-10)) (32 - (-10));
  let clamped := PyFloat.max (PFin 0) (PyFloat.min (PFin 1) normalized) in
  PyFloat.int (PyFloat.mul_int clamped (Z.of_nat (length TEMP_COLORS) - 1)).

(** The colour [temp_colormap] returns; the palette of this script holds the
    hex strings of the triples of [TEMP_COLORS]. *)
Definition temp_colormap (temp : pyfloat) : option color :=
  idx ← color_idx temp;
  Py.index TEMP_COLORS idx.

End LeafletImages.

(** ** process_temperature.py *)

Module ProcessTemperature.

(** numpy's [np.percentile(a, q)] with its default linear interpolation
    between the two closest ranks of the sorted data. *)
Definition np_percentile (a : list Q) (q : Q) : Q :=
  let s := Py.sort a in
  let n := Z.of_nat (length s) in
  let pos := (q / 100 * inject_Z (n - 1))%Q in
  let lo := Qfloor pos in
  let hi := Z.min (lo + 1) (n - 1) in
  let t := (pos - inject_Z lo)%Q in
  let a_lo := default 0%Q (s !! Z.to_nat lo) in
  let a_hi := default 0%Q (s !! Z.to_nat hi) in
  (a_lo + (a_hi - a_lo) * t)%Q.

(** Lines 111-112: the values of the frame that are not NaN. *)
Definition temp_valid (temp_values : list (list (option Q))) : list Q :=
  omap id (mjoin temp_values).

(** [np.arange(10, 100, 10)]. *)
Definition decile_ranks : list Q :=
  (fun k => inject_Z (10 * k)) <$> seqZ 1 9.

(** Lines 124-128 for one valid cell: [color_idx] starts at 0 and every
    bound the value exceeds overwrites it with [i + 1]. *)
Definition color_idx (decile_bounds : list Q) (v : Q) : nat :=
  foldl (fun idx '(i, bound) => if Py.gtb v bound then S i else idx) 0%nat
        (imap pair decile_bounds).

(** Breakpoints in rising order, as percentiles of rising ranks are. *)
Definition nondecreasing (bounds : list Q) : Prop :=
  forall (i j : nat) (a b : Q),
    (i <= j)%nat -> bounds !! i = Some a -> bounds !! j = Some b -> (a <= b)%Q.

Section Colors.
(** matplotlib's [mcolors.to_rgb] on a colour name. *)
Context (to_rgb : string -> Q * Q * Q).

Definition white : Q * Q * Q := (1, 1, 1)%Q.

(** Lines 130-133 for one cell: a NaN cell and a cell whose index no
    colour has keep the ones of [np.ones]. *)
Definition cell_rgb (decile_bounds : list Q) (colors : list string)
    (v : option Q) : Q * Q * Q :=
  match v with
  | None => white
  | Some v =>
      match colors !! color_idx decile_bounds v with
      | Some c => to_rgb c
      | None => white
      end
  end.

(** The array before line 136. *)
Definition colored (temp_values : list (list (option Q)))
    (colors : list string) : list (list (Q * Q * Q)) :=
  let decile_bounds :=
    np_percentile (temp_valid temp_values) <$> decile_ranks in
  fmap (M := list) (cell_rgb decile_bounds colors) <$> temp_values.

(** [create_temp_rgb_array(temp_values, colors)]: an array of shape
    (n_y, n_x, 3). *)
Definition create_temp_rgb_array (temp_values : list (list (option Q)))
    (colors : list string) : list (list (Q * Q * Q)) :=
  let rgb_array :=
    fmap (M := list) (fun _ : option Q => white) <$> temp_values in
  if decide (length (temp_valid temp_values) = 0%nat) then rgb_array
  else flipud (colored temp_values colors).

End Colors.

(** The palette of the script. *)
Definition TEMP_COLORS : list string :=
  [ "#053061"; "#2166ac"; "#4393c3"; "#92c5de"; "#d1e5f0";
    "#fddbc7"; "#f4a582"; "#d6604d"; "#b2182b"; "#67001f" ].

(** [mcolors.to_rgb] on a string "#rrggbb": the three bytes over 255. *)
Definition hex_digit (a : Ascii.ascii) : Z :=
  let n := Z.of_nat (Ascii.nat_of_ascii a) in
  if (48 <=? n) && (n <=? 57) then n - 48
  else if (97 <=? n) && (n <=? 102) then n - 87
  else if (65 <=? n) && (n <=? 70) then n - 55
  else 0.

Definition to_rgb_hex (s : string) : Q * Q * Q :=
  match s with
  | String _ (String r1 (String r2 (String g1 (String g2
      (String b1 (String b2 _)))))) =>
      (inject_Z (16 * hex_digit r1 + hex_digit r2) / 255,
       inject_Z (16 * hex_digit g1 + hex_digit g2) / 255,
       inject_Z (16 * hex_digit b1 + hex_digit b2) / 255)%Q
  | _ => (0, 0, 0)%Q
  end.

(** The channels of a pixel of the returned array; an array of shape
    (n_y, n_x, 3) has no fourth one. *)
Definition channels (p : Q * Q * Q) : list Q := [p.1.1; p.1.2; p.2].
Definition alpha (p : Q * Q * Q) : option Q := channels p !! 3%nat.

End ProcessTemperature.


(** ** Sample inputs *)

Module Sample.

(** A 2 x 2 image over latitudes 1000..2000 and longitudes 0..1000, with a
    reprojection that takes (lng, lat) as (easting, northing) and fails
    north of 5000. *)
Definition g : globals :=
  Globals 2 2 (1000 # 1) (2000 # 1) 0 (1000 # 1)
    (fun lng lat => if Qle_bool lat (5000 # 1) then Some (lng, lat) else None).


Definition rain : gmap string (gmap string Q) :=
  {[ "0" := {[ "2000" := 1%Q; "1000" := 5%Q ]} ]}.
Definition sun : gmap string (gmap string Q) :=
  {[ "0" := {[ "2000" := 7%Q ]} ]}.
Definition temp : gmap string (gmap string Q) :=
  {[ "0" := {[ "2000" := 15%Q; "1000" := (- (3 # 1))%Q ]} ]}.

(** Data with an easting key and no value under it. *)
Definition hollow : gmap string (gmap string Q) := {[ "0" := ∅ ]}.

(** A 1 x 2 image in Web Mercator space for generate_pngs_old_broken.py. *)
Definition mg : merc_globals :=
  MercGlobals 1 2 0 (1000 # 1) 0 (2000 # 1) (fun x y => Some (x, y)).
Definition sun2 : gmap string (gmap string Q) :=
  {[ "0" := {[ "2000" := 7%Q; "1000" := 3%Q ]} ]}.

(** A 2 x 2 image whose four pixels reproject onto the centres of the
    cells (0, 0) .. (1, 1) of the extractor's grid. *)
Definition g_grid : globals :=
  Globals 2 2 (1248000 # 1) (1249000 # 1) (- (199000 # 1)) (- (198000 # 1))
    (fun lng lat => Some (lng, lat)).

(** Two frames of two rows. *)
Definition frame : list (list (option Q)) :=
  [ [Some 0%Q; None]; [Some 30%Q; Some 12%Q] ].

End Sample.

(** ** Facts on the numeric primitives *)

Lemma int_nonneg_floor (x : Q) : (0 <= x)%Q -> Py.int x = Qfloor x.
Proof.
  destruct x as [n d]. unfold Qle, Py.int, Qfloor. simpl. intros H.
  rewrite Z.mul_1_r in H. apply Z.quot_div_nonneg; lia.
Qed.

Lemma floor_unique (x : Q) (n : Z) :
  (inject_Z n <= x)%Q -> (x < inject_Z (n + 1))%Q -> Qfloor x = n.
Proof.
  intros Hlo Hhi.
  assert (H1 : n <= Qfloor x).
  { rewrite <- (Qfloor_Z n). by apply Qfloor_resp_le. }
  assert (H2 : Qfloor x < n + 1).
  { rewrite Zlt_Qlt. eapply Qle_lt_trans; [apply Qfloor_le | done]. }
  lia.
Qed.

Lemma int_of_half (n : Z) (x : Q) :
  0 <= n -> (x == inject_Z n + (1 # 2))%Q -> Py.int x = n.
Proof.
  intros Hn Hx.
  assert (Hn' : (inject_Z 0 <= inject_Z n)%Q) by (by rewrite <- Zle_Qle).
  change (inject_Z 0) with 0%Q in Hn'.
  rewrite int_nonneg_floor by (rewrite Hx; lra).
  apply floor_unique; rewrite Hx, ?inject_Z_plus;
    change (inject_Z 1) with 1%Q; lra.
Qed.

Lemma int_opp (x : Q) : Py.int (- x) = - Py.int x.
Proof. destruct x as [n d]. unfold Py.int. simpl. apply Z.quot_opp_l. lia. Qed.

Lemma int_nonpos_floor (x : Q) : (x <= 0)%Q -> Py.int x = - Qfloor (- x).
Proof.
  intros H. rewrite <- int_nonneg_floor by lra.
  rewrite int_opp. lia.
Qed.

Lemma floor_ge (x : Q) (n : Z) : (inject_Z n <= x)%Q -> n <= Qfloor x.
Proof. intros H. rewrite <- (Qfloor_Z n). by apply Qfloor_resp_le. Qed.

Lemma floor_lt (x : Q) (n : Z) : (x < inject_Z n)%Q -> Qfloor x < n.
Proof.
  intros H. rewrite Zlt_Qlt. eapply Qle_lt_trans; [apply Qfloor_le | done].
Qed.

(** ** The grid index mapper *)

Section GridIndex.
Import ExtractData.

Lemma index_in_grid_nonneg (row col : Z) :
  index_in_grid (row, col) -> 0 <= row /\ 0 <= col.
Proof. unfold index_in_grid. simpl. lia. Qed.

Lemma coord_to_index_center (row col : Z) :
  0 <= row -> 0 <= col ->
  coord_to_index (index_to_coord row col).1 (index_to_coord row col).2
  = (row, col).
Proof.
  intros Hr Hc. unfold coord_to_index, index_to_coord. simpl. f_equal.
  - apply int_of_half; [done|]. unfold Y_MAX, RESOLUTION. field.
  - apply int_of_half; [done|]. unfold X_MIN, RESOLUTION. field.
Qed.

(** C4.  For every cell index within the grid, [index_to_coord] followed
    by [coord_to_index] gives the index back. *)
Theorem coord_index_round_trip (row col : Z) :
  index_in_grid (row, col) ->
  coord_to_index (index_to_coord row col).1 (index_to_coord row col).2
  = (row, col).
Proof.
  intros [Hr Hc]%index_in_grid_nonneg. by apply coord_to_index_center.
Qed.

Lemma coord_index_round_trip_witness :
  index_in_grid (1249, 656) /\
  coord_to_index (index_to_coord 1249 656).1 (index_to_coord 1249 656).2
  = (1249, 656).
Proof.
  assert (H : index_in_grid (1249, 656)) by (by vm_compute).
  split; [exact H | exact (coord_index_round_trip 1249 656 H)].
Defined.

(** The other way round the coordinate is not recovered: a point 300 m
    east of Woolhampton lies in Woolhampton's cell, whose centre is
    Woolhampton. *)
Example woolhampton_cell :
  coord_to_index (457300 # 1) (166000 # 1) = (1083, 656) /\
  (index_to_coord 1083 656).1 == 457000 # 1 /\
  (index_to_coord 1083 656).2 == 166000 # 1.
Proof. by vm_compute. Qed.

Lemma coord_to_index_quotients (x y : Q) :
  coord_to_index x y = (Py.int (row_quotient y), Py.int (col_quotient x)).
Proof. reflexivity. Qed.

Lemma int_ge (q : Q) (n : Z) : 0 <= n -> (inject_Z n <= q)%Q -> n <= Py.int q.
Proof.
  intros Hn Hq.
  assert (Hn' : (inject_Z 0 <= inject_Z n)%Q) by (by rewrite <- Zle_Qle).
  change (inject_Z 0) with 0%Q in Hn'.
  rewrite int_nonneg_floor by lra. by apply floor_ge.
Qed.

Lemma int_le_neg (q : Q) : (q <= - 1)%Q -> Py.int q <= -1.
Proof.
  intros Hq. rewrite int_nonpos_floor by lra.
  assert (1 <= Qfloor (- q)); [|lia].
  apply floor_ge. change (inject_Z 1) with 1%Q. lra.
Qed.

Lemma int_small_neg (q : Q) : (- 1 < q)%Q -> (q <= 0)%Q -> Py.int q = 0.
Proof.
  intros Hlo Hhi. rewrite int_nonpos_floor by done.
  assert (Qfloor (- q) = 0); [|lia].
  apply floor_unique; [change (inject_Z 0) with 0%Q
                      |change (inject_Z (0 + 1)) with 1%Q]; lra.
Qed.

(** The claim of C8 fails half a kilometre west of the extent: the
    quotient -0.5 is truncated to column 0, where its floor is -1, and
    the index lies inside the grid. *)
Lemma coord_to_index_west_of_extent :
  let x := (- (200000 # 1))%Q in
  let y := 0%Q in
  (x < X_MIN)%Q /\ ~ in_extent (x, y) /\
  coord_to_index x y = (1249, 0) /\
  index_in_grid (coord_to_index x y) /\
  Qfloor (col_quotient x) = -1.
Proof.
  repeat split; try by vm_compute.
  intros (H & _). by vm_compute in H.
Qed.

(** C8, amended.  [coord_to_index] truncates the two quotients toward
    zero and raises nothing: where a quotient is not negative this is its
    floor, where it is negative it is the negated floor of its opposite.
    A coordinate east of [X_MAX], south of [Y_MIN], or at least one
    resolution step west of [X_MIN] or north of [Y_MAX] gets an index
    outside the grid; less than one step west of [X_MIN] the column is 0
    and less than one step north of [Y_MAX] the row is 0. *)
Theorem coord_to_index_truncates (x y : Q) :
  let rc := coord_to_index x y in
  ((X_MIN <= x)%Q -> rc.2 = Qfloor (col_quotient x)) /\
  ((x <= X_MIN)%Q -> rc.2 = - Qfloor (- col_quotient x)) /\
  ((y <= Y_MAX)%Q -> rc.1 = Qfloor (row_quotient y)) /\
  ((Y_MAX <= y)%Q -> rc.1 = - Qfloor (- row_quotient y)) /\
  ((X_MAX < x)%Q \/ (y < Y_MIN)%Q \/
   (x <= X_MIN - inject_Z RESOLUTION)%Q \/
   (Y_MAX + inject_Z RESOLUTION <= y)%Q -> ~ index_in_grid rc) /\
  ((X_MIN - inject_Z RESOLUTION < x)%Q -> (x <= X_MIN)%Q -> rc.2 = 0) /\
  ((y < Y_MAX + inject_Z RESOLUTION)%Q -> (Y_MAX <= y)%Q -> rc.1 = 0).
Proof.
  rewrite coord_to_index_quotients. simpl.
  assert (Hc : (col_quotient x * 1000 == x - X_MIN)%Q)
    by (unfold col_quotient, RESOLUTION; field).
  assert (Hr : (row_quotient y * 1000 == Y_MAX - y)%Q)
    by (unfold row_quotient, RESOLUTION; field).
  unfold X_MIN, X_MAX, Y_MIN, Y_MAX, RESOLUTION in *.
  change (inject_Z 1000) with (1000 # 1)%Q.
  repeat split.
  - intros H. apply int_nonneg_floor. lra.
  - intros H. apply int_nonpos_floor. lra.
  - intros H. apply int_nonneg_floor. lra.
  - intros H. apply int_nonpos_floor. lra.
  - unfold index_in_grid. simpl.
    change grid_height with 1449. change grid_width with 899.
    intros [H | [H | [H | H]]] [Hrow Hcol].
    + assert (899 <= Py.int (col_quotient x)); [|lia].
      apply int_ge; [lia|]. change (inject_Z 899) with (899 # 1)%Q. lra.
    + assert (1449 <= Py.int (row_quotient y)); [|lia].
      apply int_ge; [lia|]. change (inject_Z 1449) with (1449 # 1)%Q. lra.
    + assert (Py.int (col_quotient x) <= -1); [|lia].
      apply int_le_neg. lra.
    + assert (Py.int (row_quotient y) <= -1); [|lia].
      apply int_le_neg. lra.
  - intros H1 H2. apply int_small_neg; lra.
  - intros H1 H2. apply int_small_neg; lra.
Qed.

Lemma coord_to_index_truncates_witness :
  (coord_to_index (- (199900 # 1)) (1249600 # 1)).2 = 0 /\
  (coord_to_index (- (199900 # 1)) (1249600 # 1)).1 = 0 /\
  ~ index_in_grid (coord_to_index (700000 # 1) 0).
Proof.
  pose proof (coord_to_index_truncates (- (199900 # 1)) (1249600 # 1))
    as (_ & _ & _ & _ & _ & Hc & Hr).
  pose proof (coord_to_index_truncates (700000 # 1) 0)
    as (_ & _ & _ & _ & Hout & _).
  split; [apply Hc; by vm_compute|].
  split; [apply Hr; by vm_compute|].
  apply Hout. left. by vm_compute.
Defined.

End GridIndex.

(** ** The sequential temperature colorizer *)

Lemma ltb_true (a b : Q) : Py.ltb a b = true <-> (a < b)%Q.
Proof.
  unfold Py.ltb. rewrite negb_true_iff, <- not_true_iff_false, Qle_bool_iff.
  split; [apply Qnot_le_lt | apply Qlt_not_le].
Qed.

Lemma ltb_false (a b : Q) : Py.ltb a b = false <-> (b <= a)%Q.
Proof. unfold Py.ltb. by rewrite negb_false_iff, Qle_bool_iff. Qed.

Lemma le_bool_false (a b : Q) : Qle_bool a b = false <-> (b < a)%Q.
Proof.
  rewrite <- not_true_iff_false, Qle_bool_iff.
  split; [apply Qnot_le_lt | apply Qlt_not_le].
Qed.

Ltac cmp_cases :=
  repeat match goal with
  | |- context [Py.ltb ?a ?b] =>
      let E := fresh "E" in
      destruct (Py.ltb a b) eqn:E;
      [apply ltb_true in E | apply ltb_false in E]
  | |- context [Qle_bool ?a ?b] =>
      let E := fresh "E" in
      destruct (Qle_bool a b) eqn:E;
      [apply Qle_bool_iff in E | apply le_bool_false in E]
  end.

(** [max(0, min(1, normalized))] on a finite float is the clamp. *)
Lemma clamped_fin (n : Q) :
  exists c, PyFloat.max (PFin 0) (PyFloat.min (PFin 1) (PFin n)) = PFin c
            /\ (c == clamp n 0 1)%Q /\ (0 <= c)%Q /\ (c <= 1)%Q.
Proof.
  unfold PyFloat.max, PyFloat.min, PyFloat.ltb, clamp.
  destruct (Py.ltb n 1) eqn:E1;
    [apply ltb_true in E1 | apply ltb_false in E1]; simpl;
    cmp_cases; eexists; (split; [reflexivity|]); repeat split; lra.
Qed.

(** The clamped value of any float, finite or not, is a finite number of
    [0, 1]. *)
Lemma clamped_any (n : pyfloat) :
  exists c, PyFloat.max (PFin 0) (PyFloat.min (PFin 1) n) = PFin c
            /\ (0 <= c)%Q /\ (c <= 1)%Q.
Proof.
  destruct n as [n| | |].
  - destruct (clamped_fin n) as (c & -> & _ & ? & ?). eauto.
  - exists 1%Q. by vm_compute.
  - exists 0%Q. by vm_compute.
  - exists 1%Q. by vm_compute.
Qed.

Lemma int_scaled (c : Q) (k : Z) :
  0 <= k -> (0 <= c)%Q -> (c <= 1)%Q ->
  Py.int (c * inject_Z k) = Qfloor (c * inject_Z k) /\
  0 <= Qfloor (c * inject_Z k) <= k.
Proof.
  intros Hk H0 H1.
  assert (Hk' : (inject_Z 0 <= inject_Z k)%Q) by (by rewrite <- Zle_Qle).
  change (inject_Z 0) with 0%Q in Hk'.
  assert (Hlo : (0 <= c * inject_Z k)%Q) by (by apply Qmult_le_0_compat).
  assert (Hhi : (c * inject_Z k <= inject_Z k)%Q).
  { rewrite <- (Qmult_1_l (inject_Z k)) at 2. by apply Qmult_le_compat_r. }
  split; [by apply int_nonneg_floor|]. split.
  - by apply (floor_ge _ 0).
  - pose proof (Qfloor_resp_le _ _ Hhi) as H. by rewrite Qfloor_Z in H.
Qed.

Lemma palette_index_some (idx : Z) :
  0 <= idx <= 9 ->
  exists c, Py.index TEMP_COLORS idx = Some c /\
            TEMP_COLORS !! Z.to_nat idx = Some c /\ c ∈ TEMP_COLORS.
Proof.
  intros H.
  assert (Hin : exists c, TEMP_COLORS !! Z.to_nat idx = Some c).
  { apply lookup_lt_is_Some. simpl. lia. }
  destruct Hin as [c Hc]. exists c. split; [|split; [done|]].
  - unfold Py.index. simpl length.
    replace (0 <=? idx) with true by (symmetry; apply Z.leb_le; lia).
    replace (idx <? Z.of_nat 10) with true by (symmetry; apply Z.ltb_lt; lia).
    done.
  - by eapply list_elem_of_lookup_2.
Qed.

Lemma temp_index_clamped (temp : pyfloat) :
  exists c,
    PyFloat.max (PFin 0) (PyFloat.min (PFin 1) (normalized_of temp)) = PFin c
    /\ (0 <= c)%Q /\ (c <= 1)%Q /\
    temp_index temp (-10) 32 = Some (Z.min (Qfloor (c * inject_Z 9)) 9) /\
    OverlayImages.color_idx temp
    = Some (Z.min (Qfloor (c * inject_Z 10)) 9).
Proof.
  destruct (clamped_any (normalized_of temp)) as (c & Hc & H0 & H1).
  exists c. split; [done|]. split; [done|]. split; [done|].
  unfold temp_index, OverlayImages.color_idx.
  change (Z.of_nat (length TEMP_COLORS)) with 10.
  change (10 - 1) with 9. change (32 - -10) with 42.
  assert (Hn : forall t, PyFloat.div_int (PyFloat.sub_int t (-10)) 42
                         = Some (normalized_of t)) by (by intros []).
  rewrite Hn. cbn [mbind option_bind]. rewrite Hc.
  cbn [PyFloat.mul_int PyFloat.int mbind option_bind].
  destruct (int_scaled c 9 ltac:(lia) H0 H1) as [-> _].
  destruct (int_scaled c 10 ltac:(lia) H0 H1) as [-> _].
  done.
Qed.

(** C10.  Whatever float it is given, a number of any size, an infinity or
    NaN, [get_color_for_temp] raises nothing: the index it computes lies in
    [0, 9] and the result is that entry of the ten [TEMP_COLORS]. *)
Theorem get_color_for_temp_in_palette (temp : pyfloat) :
  exists idx c,
    temp_index temp (-10) 32 = Some idx /\ 0 <= idx <= 9 /\
    get_color_for_temp temp (-10) 32 = Some c /\
    TEMP_COLORS !! Z.to_nat idx = Some c /\ c ∈ TEMP_COLORS.
Proof.
  destruct (temp_index_clamped temp) as (c & _ & H0 & H1 & Hidx & _).
  destruct (int_scaled c 9 ltac:(lia) H0 H1) as [_ Hr].
  destruct (palette_index_some (Z.min (Qfloor (c * inject_Z 9)) 9)
              ltac:(lia)) as (col & Hcol & Hl & Hin).
  exists (Z.min (Qfloor (c * inject_Z 9)) 9), col.
  unfold get_color_for_temp. rewrite Hidx. cbn [mbind option_bind].
  repeat split; try done; lia.
Qed.



(** ** Percentile classifiers and ties *)

Section Ties.
Import ProcessTemperature.

Lemma color_idx_snoc (bounds : list Q) (b v : Q) :
  color_idx (bounds ++ [b]) v
  = if Py.gtb v b then S (length bounds) else color_idx bounds v.
Proof.
  unfold color_idx. rewrite imap_app, foldl_app. simpl.
  by rewrite Nat.add_0_r.
Qed.

Lemma color_idx_le_length (bounds : list Q) (v : Q) :
  (color_idx bounds v <= length bounds)%nat.
Proof.
  induction bounds as [|b bounds IH] using rev_ind; [done|].
  rewrite color_idx_snoc, length_app. simpl.
  destruct (Py.gtb v b); lia.
Qed.

Lemma color_idx_promoted (bounds : list Q) (v : Q) (i : nat) (b : Q) :
  bounds !! i = Some b -> (b < v)%Q -> (i < color_idx bounds v)%nat.
Proof.
  revert i b. induction bounds as [|x bounds IH] using rev_ind;
    intros i b Hi Hlt; [done|].
  rewrite color_idx_snoc. unfold Py.gtb.
  destruct (Py.ltb x v) eqn:E; [apply ltb_true in E | apply ltb_false in E].
  - apply lookup_lt_Some in Hi. rewrite length_app in Hi. simpl in Hi. lia.
  - apply lookup_app_Some in Hi as [Hi | [Hlen Hi]]; [by eapply IH|].
    destruct (i - length bounds)%nat; [|done].
    simpl in Hi. injection Hi as ->. lra.
Qed.

Lemma nondecreasing_app_l (l k : list Q) :
  nondecreasing (l ++ k) -> nondecreasing l.
Proof.
  intros H i j a b Hij Hi Hj.
  apply (H i j); [done| |]; by apply lookup_app_l_Some.
Qed.

Lemma color_idx_tie (bounds : list Q) (v : Q) (i : nat) (b : Q) :
  nondecreasing bounds ->
  bounds !! i = Some b -> (v <= b)%Q -> (color_idx bounds v <= i)%nat.
Proof.
  revert i b. induction bounds as [|x bounds IH] using rev_ind;
    intros i b Hs Hi Hle; [done|].
  assert (Hbx : (b <= x)%Q).
  { apply (Hs i (length bounds)); [|done|].
    - apply lookup_lt_Some in Hi. rewrite length_app in Hi. simpl in Hi. lia.
    - by rewrite lookup_app_r, Nat.sub_diag. }
  rewrite color_idx_snoc. unfold Py.gtb.
  destruct (Py.ltb x v) eqn:E; [apply ltb_true in E; lra|].
  apply lookup_app_Some in Hi as [Hi | [Hlen Hi]].
  - eapply IH; [by eapply nondecreasing_app_l|done..].
  - pose proof (color_idx_le_length bounds v). lia.
Qed.

(** The claim of C7 fails on the bivariate classifier: a value equal to
    the lower breakpoint gets level 1, the bucket above it, and one equal
    to the upper breakpoint gets level 2, where the decile binning leaves
    a value equal to a bound in the bin below. *)
Lemma tie_goes_up_in_tertiles :
  tertile_level 5 5 9 = 1 /\ tertile_level 9 5 9 = 2 /\
  get_color_for_rain_sun 5 9 5 9 5 9 = BIVARIATE_COLORS (1, 2) /\
  color_idx [5; 9]%Q 5 = 0%nat /\ color_idx [5; 9]%Q 9 = 1%nat.
Proof. by vm_compute. Qed.

(** C7, amended.  The bivariate classifier tests [value < breakpoint]:
    level 0 is below the lower breakpoint, level 1 from the lower
    breakpoint up to below the upper one, level 2 from the upper one on,
    so a value equal to a breakpoint is in the bucket above it.  The
    decile binning tests [value > bound]: over rising bounds a value is
    in a bin above the i-th bound exactly when it exceeds that bound, so a
    value equal to a bound is in a bin at or below it.  The two
    classifiers treat ties in opposite ways. *)
Theorem classifier_ties (v b33 b66 : Q) (bounds : list Q) (i : nat) (b : Q) :
  nondecreasing bounds -> bounds !! i = Some b ->
  (tertile_level v b33 b66 = 0 <-> (v < b33)%Q) /\
  (tertile_level v b33 b66 = 1 <-> (b33 <= v)%Q /\ (v < b66)%Q) /\
  (tertile_level v b33 b66 = 2 <-> (b33 <= v)%Q /\ (b66 <= v)%Q) /\
  ((i < color_idx bounds v)%nat <-> (b < v)%Q) /\
  ((v == b)%Q -> (color_idx bounds v <= i)%nat).
Proof.
  intros Hs Hi. unfold tertile_level.
  split; [|split; [|split; [|split; [split|]]]].
  - cmp_cases; split; intros; first [lia | lra].
  - cmp_cases; (split; [intros ?; first [lia | split; lra] | intros [? ?]]);
      first [lia | lra].
  - cmp_cases; (split; [intros ?; first [lia | split; lra] | intros [? ?]]);
      first [lia | lra].
  - intros Hlt. destruct (Qlt_le_dec b v) as [|Hle]; [done|].
    pose proof (color_idx_tie bounds v i b Hs Hi Hle). lia.
  - by apply color_idx_promoted.
  - intros Heq. apply (color_idx_tie bounds v i b Hs Hi). lra.
Qed.

Lemma classifier_ties_witness :
  (tertile_level 5 5 9 = 1 <-> (5 <= 5)%Q /\ (5 < 9)%Q) /\
  (color_idx [5; 9]%Q 9 <= 1)%nat.
Proof.
  assert (Hs : nondecreasing [5; 9]%Q).
  { intros i j a b Hij Hi Hj.
    destruct i as [|[|i]], j as [|[|j]]; simplify_eq/=; try lia; lra. }
  pose proof (classifier_ties 5 5 9 [5; 9]%Q 0 5 Hs eq_refl)
    as (_ & H1 & _).
  pose proof (classifier_ties 9 5 9 [5; 9]%Q 1 9 Hs eq_refl)
    as (_ & _ & _ & _ & H2).
  split; [exact H1 | apply H2; reflexivity].
Defined.

End Ties.

(** ** Pixel coordinates *)

Lemma truediv_some (a b : Z) :
  b <> 0 -> Py.truediv a b = Some (inject_Z a / inject_Z b)%Q.
Proof. intros Hb. unfold Py.truediv. by rewrite (proj2 (Z.eqb_neq b 0) Hb). Qed.

Lemma inject_Z_nonzero (b : Z) : b <> 0 -> ~ (inject_Z b == 0)%Q.
Proof. intros Hb H. apply Hb. unfold Qeq in H. simpl in H. lia. Qed.

Section FixedPixels.
Context (g : globals).
Hypothesis height_gt_1 : 1 < IMG_HEIGHT g.
Hypothesis width_gt_1 : 1 < IMG_WIDTH g.

(** The fixed generator interpolates with the divisors H - 1 and W - 1. *)
Lemma fixed_pixel_latlng (row col : Z) :
  PngsFixed.pixel_latlng g row col
  = Some ((LAT_MAX g - inject_Z row / inject_Z (IMG_HEIGHT g - 1)
                       * (LAT_MAX g - LAT_MIN g))%Q,
          (LNG_MIN g + inject_Z col / inject_Z (IMG_WIDTH g - 1)
                       * (LNG_MAX g - LNG_MIN g))%Q).
Proof.
  unfold PngsFixed.pixel_latlng.
  rewrite !truediv_some by lia. reflexivity.
Qed.

(** Pixel (0, 0) is the north-west corner and pixel (H - 1, W - 1) the
    south-east corner of the bounds. *)
Lemma fixed_pixel_corners :
  exists lat0 lng0 lat1 lng1,
    PngsFixed.pixel_latlng g 0 0 = Some (lat0, lng0) /\
    PngsFixed.pixel_latlng g (IMG_HEIGHT g - 1) (IMG_WIDTH g - 1)
    = Some (lat1, lng1) /\
    (lat0 == LAT_MAX g)%Q /\ (lng0 == LNG_MIN g)%Q /\
    (lat1 == LAT_MIN g)%Q /\ (lng1 == LNG_MAX g)%Q.
Proof.
  do 4 eexists. rewrite !fixed_pixel_latlng.
  split; [reflexivity|]. split; [reflexivity|].
  pose proof (inject_Z_nonzero (IMG_HEIGHT g - 1) ltac:(lia)).
  pose proof (inject_Z_nonzero (IMG_WIDTH g - 1) ltac:(lia)).
  repeat split; change (inject_Z 0) with 0%Q; by field.
Qed.

End FixedPixels.

(** C1 fails in generate_pngs.py, which divides by the image height and
    width: the last pixel of its 3000 x 2000 image over
    [[49.5, -8.5], [61.0, 2.0]] is given a latitude 23/6000 of a degree
    north of the south bound and a longitude 21/4000 of a degree west of the
    east bound, both far more than 1e-9, while pixel (0, 0) is the
    north-west corner. *)
Theorem pngs_last_pixel_short_of_bounds :
  exists lat lng lat0 lng0,
    Pngs.pixel_latlng (Pngs.IMG_HEIGHT - 1) (Pngs.IMG_WIDTH - 1)
    = Some (lat, lng) /\
    Pngs.pixel_latlng 0 0 = Some (lat0, lng0) /\
    (lat - Pngs.LAT_MIN == 23 # 6000)%Q /\
    (Pngs.LNG_MAX - lng == 21 # 4000)%Q /\
    (1 # 1000000000 < lat - Pngs.LAT_MIN)%Q /\
    (1 # 1000000000 < Pngs.LNG_MAX - lng)%Q /\
    (lat0 == Pngs.LAT_MAX)%Q /\ (lng0 == Pngs.LNG_MIN)%Q.
Proof.
  do 4 eexists. split; [by vm_compute|]. split; [by vm_compute|].
  by vm_compute.
Qed.

(** ** The sparse grid *)

Lemma int_inject (x : Q) (n : Z) : (x == inject_Z n)%Q -> Py.int x = n.
Proof.
  destruct x as [a b]. unfold Qeq, Py.int. simpl. intros H.
  rewrite Z.mul_1_r in H. rewrite H. apply Z.quot_mul. lia.
Qed.


Section Sparse.
Import ExtractData.

Lemma center_x (row col : Z) :
  ((index_to_coord row col).1 == inject_Z (1000 * col - 199000))%Q.
Proof.
  unfold index_to_coord, X_MIN, RESOLUTION. cbn [fst].
  unfold Z.sub. rewrite inject_Z_plus, inject_Z_mult.
  change (inject_Z 1000) with (1000 # 1)%Q.
  change (inject_Z (- (199000))) with (- (199000 # 1))%Q. lra.
Qed.

Lemma center_y (row col : Z) :
  ((index_to_coord row col).2 == inject_Z (1249000 - 1000 * row))%Q.
Proof.
  unfold index_to_coord, Y_MAX, RESOLUTION. cbn [snd].
  unfold Z.sub. rewrite inject_Z_plus, inject_Z_opp, inject_Z_mult.
  change (inject_Z 1000) with (1000 # 1)%Q.
  change (inject_Z 1249000) with (1249000 # 1)%Q. lra.
Qed.

Lemma x_key_of_inj (c c' : nat) : x_key_of c = x_key_of c' -> c = c'.
Proof. unfold x_key_of. intros H%(inj pretty). lia. Qed.

Lemma y_key_of_inj (r r' : nat) : y_key_of r = y_key_of r' -> r = r'.
Proof. unfold y_key_of. intros H%(inj pretty). lia. Qed.

Lemma store_cell_eq (m : gmap string (gmap string Q)) (row col : nat) (v : Q) :
  store_cell m (row, col, v)
  = <[x_key_of col :=
        <[y_key_of row := Py.round1 v]> (default ∅ (m !! x_key_of col))]> m.
Proof.
  unfold store_cell.
  destruct (index_to_coord (Z.of_nat row) (Z.of_nat col)) as [x y] eqn:E.
  pose proof (center_x (Z.of_nat row) (Z.of_nat col)) as Hx.
  pose proof (center_y (Z.of_nat row) (Z.of_nat col)) as Hy.
  rewrite E in Hx, Hy. simpl in Hx, Hy.
  rewrite (int_inject _ _ Hx), (int_inject _ _ Hy).
  fold (x_key_of col). fold (y_key_of row).
  destruct (decide (is_Some (m !! x_key_of col))) as [|Hn]; [done|].
  rewrite lookup_insert_eq, insert_insert_eq. simpl.
  apply eq_None_not_Some in Hn. by rewrite Hn.
Qed.

Lemma get_store_cell (m : gmap string (gmap string Q)) (row col : nat)
    (v : Q) (xk yk : string) :
  get (store_cell m (row, col, v)) xk yk
  = if decide (xk = x_key_of col /\ yk = y_key_of row)
    then Some (Py.round1 v) else get m xk yk.
Proof.
  rewrite store_cell_eq. unfold get.
  destruct (decide (xk = x_key_of col)) as [->|Hx].
  - rewrite lookup_insert_eq. simpl.
    destruct (decide (yk = y_key_of row)) as [->|Hy].
    + rewrite lookup_insert_eq. by rewrite decide_True.
    + rewrite lookup_insert_ne by done.
      rewrite decide_False by (by intros [_ ?]).
      by destruct (m !! x_key_of col).
  - rewrite lookup_insert_ne by done.
    by rewrite decide_False by (by intros [? _]).
Qed.

Lemma get_foldl_other (l : list (nat * nat * Q))
    (m : gmap string (gmap string Q)) (xk yk : string) :
  (forall row col v, (row, col, v) ∈ l ->
     ~ (xk = x_key_of col /\ yk = y_key_of row)) ->
  get (foldl store_cell m l) xk yk = get m xk yk.
Proof.
  revert m. induction l as [|[[row col] v] l IH]; intros m H; [done|].
  cbn [foldl]. rewrite IH by (intros r c w Hin; apply (H r c w); by right).
  rewrite get_store_cell, decide_False; [done|].
  apply (H row col v). by left.
Qed.

Lemma get_foldl_stored (l : list (nat * nat * Q))
    (m : gmap string (gmap string Q)) (row col : nat) (v : Q) :
  (row, col, v) ∈ l ->
  (forall v', (row, col, v') ∈ l -> v' = v) ->
  get (foldl store_cell m l) (x_key_of col) (y_key_of row)
  = Some (Py.round1 v).
Proof.
  revert m. induction l as [|[[r c] w] l IH] using rev_ind;
    intros m Hin Huniq; [by apply elem_of_nil in Hin|].
  rewrite foldl_app. cbn [foldl]. rewrite get_store_cell.
  destruct (decide (x_key_of col = x_key_of c /\ y_key_of row = y_key_of r))
    as [[Hc%x_key_of_inj Hr%y_key_of_inj]|Hne].
  - subst c r. f_equal. f_equal. apply Huniq.
    apply elem_of_app. right. by apply list_elem_of_singleton.
  - apply IH.
    + apply elem_of_app in Hin as [Hin|Hin%list_elem_of_singleton]; [done|].
      injection Hin as -> -> ->. by destruct Hne.
    + intros v' Hv'. apply Huniq, elem_of_app. by left.
Qed.

Lemma elem_of_valid_cells (frame : list (list (option Q)))
    (row col : nat) (v : Q) :
  (row, col, v) ∈ valid_cells frame <-> cell_value frame row col = Some v.
Proof.
  unfold valid_cells, cell_value. rewrite list_elem_of_join. split.
  - intros (l & Hin & (r & vals & -> & Hr)%elem_of_lookup_imap).
    apply list_elem_of_omap in Hin as (o & Ho & Hid).
    apply elem_of_lookup_imap in Ho as (c & w & -> & Hc).
    destruct w as [w|]; [|done]. simpl in Hid. injection Hid as <- <- <-.
    by rewrite Hr; simpl; rewrite Hc.
  - destruct (frame !! row) as [vals|] eqn:Hr; [|done]. simpl.
    destruct (vals !! col) as [[w|]|] eqn:Hc; try done.
    simpl. intros [= ->].
    eexists. split; [|by eapply elem_of_lookup_imap_2].
    apply list_elem_of_omap. exists (Some (row, col, v)). split; [|done].
    exact (elem_of_lookup_imap_2
             (fun col v => (fun q => (row, col, q)) <$> v)
             vals (Some v) col Hc).
Qed.




End Sparse.

(** ** Filling an image *)

Section FillImage.
Context (H W : Z) (px : Z -> Z -> option rgba).

Lemma mapM_seqZ_lookup {A} (f : Z -> option A) (n : Z) (k : list A) (i : nat) :
  mapM f (seqZ 0 n) = Some k -> Z.of_nat i < n ->
  exists y, k !! i = Some y /\ f (Z.of_nat i) = Some y.
Proof.
  intros Hk%mapM_Some Hi.
  destruct (Forall2_lookup_l _ _ _ i (Z.of_nat i) Hk) as (y & Hy & Hf).
  - by rewrite lookup_seqZ_lt.
  - eauto.
Qed.

Lemma mapM_seqZ_some {A} (f : Z -> option A) (n : Z) :
  (forall i, 0 <= i < n -> is_Some (f i)) -> is_Some (mapM f (seqZ 0 n)).
Proof.
  intros Hf. apply mapM_is_Some, Forall_forall. intros i Hi.
  apply elem_of_seqZ in Hi. apply Hf. lia.
Qed.

Lemma mapM_seqZ_length {A} (f : Z -> option A) (n : Z) (k : list A) :
  mapM f (seqZ 0 n) = Some k -> length k = Z.to_nat n.
Proof.
  intros Hk%mapM_Some%Forall2_length. by rewrite length_seqZ in Hk.
Qed.

Lemma fill_image_some :
  (forall row col, 0 <= row < H -> 0 <= col < W -> is_Some (px row col)) ->
  is_Some (fill_image H W px).
Proof.
  intros Hpx. apply mapM_seqZ_some. intros row Hrow.
  apply mapM_seqZ_some. intros col Hcol. by apply Hpx.
Qed.

Lemma fill_image_pixel (img : list (list rgba)) (row col : nat) :
  fill_image H W px = Some img ->
  Z.of_nat row < H -> Z.of_nat col < W ->
  exists p, pixel_of img row col = Some p
            /\ px (Z.of_nat row) (Z.of_nat col) = Some p.
Proof.
  intros Himg Hrow Hcol.
  destruct (mapM_seqZ_lookup _ _ _ row Himg Hrow) as (line & Hline & Hl).
  destruct (mapM_seqZ_lookup _ _ _ col Hl Hcol) as (p & Hp & Hpx).
  exists p. unfold pixel_of. rewrite Hline. by simpl.
Qed.

Lemma fill_image_height (img : list (list rgba)) :
  fill_image H W px = Some img -> length img = Z.to_nat H.
Proof. apply mapM_seqZ_length. Qed.

End FillImage.

(** ** The fixed generator *)

Lemma index_in_range {A} (l : list A) (i : Z) :
  0 <= i < Z.of_nat (length l) -> is_Some (Py.index l i).
Proof.
  intros Hi. unfold Py.index.
  replace (0 <=? i) with true by (symmetry; apply Z.leb_le; lia).
  replace (i <? Z.of_nat (length l)) with true
    by (symmetry; apply Z.ltb_lt; lia).
  simpl. apply lookup_lt_is_Some. lia.
Qed.


Section FixedGenerator.
Context (g : globals).
Hypothesis height_gt_1 : 1 < IMG_HEIGHT g.
Hypothesis width_gt_1 : 1 < IMG_WIDTH g.

Lemma fixed_temp_pixel (d : gmap string (gmap string Q)) (row col : Z) :
  PngsFixed.temp_pixel g d row col
  = Some (PngsFixed.temp_at g d (PngsFixed.lat_of g row)
            (PngsFixed.lng_of g col)).
Proof.
  unfold PngsFixed.temp_pixel.
  by rewrite (fixed_pixel_latlng g height_gt_1 width_gt_1).
Qed.

Lemma fixed_rain_sun_pixel (rain sun : gmap string (gmap string Q))
    (r33 r66 s33 s66 : Q) (row col : Z) :
  PngsFixed.rain_sun_pixel g rain sun r33 r66 s33 s66 row col
  = Some (PngsFixed.rain_sun_at g rain sun r33 r66 s33 s66
            (PngsFixed.lat_of g row) (PngsFixed.lng_of g col)).
Proof.
  unfold PngsFixed.rain_sun_pixel.
  by rewrite (fixed_pixel_latlng g height_gt_1 width_gt_1).
Qed.

Lemma fixed_breakpoints (data : gmap string (gmap string Q)) :
  exists b33 b66,
    PngsFixed.breakpoints data = Some (b33, b66) /\
    (all_values data = [] -> b33 = 0%Q /\ b66 = 0%Q).
Proof.
  unfold PngsFixed.breakpoints.
  set (values := Py.sort (all_values data)).
  destruct (0 <? Z.of_nat (length values)) eqn:E.
  - apply Z.ltb_lt in E.
    destruct (index_in_range values (Z.of_nat (length values) `div` 3))
      as [b33 ->].
    { split; [apply Z.div_pos; lia|]. apply Z.div_lt_upper_bound; lia. }
    destruct (index_in_range values
                ((2 * Z.of_nat (length values)) `div` 3)) as [b66 ->].
    { split; [apply Z.div_pos; lia|]. apply Z.div_lt_upper_bound; lia. }
    exists b33, b66. split; [done|]. intros Hnil.
    subst values. rewrite Hnil in E. simpl in E. lia.
  - exists 0%Q, 0%Q. by split.
Qed.

(** A run on data that is not empty saves an image of [IMG_HEIGHT] rows
    whose pixel [(row, col)] is what the [try] block leaves at the
    coordinate of that pixel. *)
Lemma fixed_temp_image (d : gmap string (gmap string Q)) :
  d <> ∅ ->
  exists img,
    PngsFixed.generate_temp_image g (Some d) = Saved img /\
    fill_image (IMG_HEIGHT g) (IMG_WIDTH g) (PngsFixed.temp_pixel g d)
    = Some img /\
    length img = Z.to_nat (IMG_HEIGHT g) /\
    forall row col : nat,
      Z.of_nat row < IMG_HEIGHT g -> Z.of_nat col < IMG_WIDTH g ->
      pixel_of img row col
      = Some (PngsFixed.temp_at g d (PngsFixed.lat_of g (Z.of_nat row))
                (PngsFixed.lng_of g (Z.of_nat col))).
Proof.
  intros Hd. unfold PngsFixed.generate_temp_image.
  rewrite decide_False by done.
  destruct (fill_image_some (IMG_HEIGHT g) (IMG_WIDTH g)
              (PngsFixed.temp_pixel g d)) as [img Himg].
  { intros. by rewrite fixed_temp_pixel. }
  rewrite Himg. exists img. do 2 (split; [done|]).
  split; [by eapply fill_image_height|].
  intros row col Hrow Hcol.
  destruct (fill_image_pixel _ _ _ img row col Himg Hrow Hcol)
    as (p & -> & Hp).
  by rewrite fixed_temp_pixel in Hp.
Qed.

Lemma fixed_rain_sun_image (rain sun : gmap string (gmap string Q)) :
  rain <> ∅ -> sun <> ∅ ->
  exists img r33 r66 s33 s66,
    PngsFixed.generate_rain_sun_image g (Some rain) (Some sun) = Saved img /\
    PngsFixed.breakpoints rain = Some (r33, r66) /\
    PngsFixed.breakpoints sun = Some (s33, s66) /\
    fill_image (IMG_HEIGHT g) (IMG_WIDTH g)
      (PngsFixed.rain_sun_pixel g rain sun r33 r66 s33 s66) = Some img /\
    length img = Z.to_nat (IMG_HEIGHT g) /\
    forall row col : nat,
      Z.of_nat row < IMG_HEIGHT g -> Z.of_nat col < IMG_WIDTH g ->
      pixel_of img row col
      = Some (PngsFixed.rain_sun_at g rain sun r33 r66 s33 s66
                (PngsFixed.lat_of g (Z.of_nat row))
                (PngsFixed.lng_of g (Z.of_nat col))).
Proof.
  intros Hr Hs. unfold PngsFixed.generate_rain_sun_image.
  rewrite !decide_False by done.
  destruct (fixed_breakpoints rain) as (r33 & r66 & -> & _).
  destruct (fixed_breakpoints sun) as (s33 & s66 & -> & _).
  destruct (fill_image_some (IMG_HEIGHT g) (IMG_WIDTH g)
              (PngsFixed.rain_sun_pixel g rain sun r33 r66 s33 s66))
    as [img Himg].
  { intros. by rewrite fixed_rain_sun_pixel. }
  rewrite Himg. exists img, r33, r66, s33, s66.
  do 4 (split; [done|]). split; [by eapply fill_image_height|].
  intros row col Hrow Hcol.
  destruct (fill_image_pixel _ _ _ img row col Himg Hrow Hcol)
    as (p & -> & Hp).
  by rewrite fixed_rain_sun_pixel in Hp.
Qed.

Lemma temp_at_no_data (d : gmap string (gmap string Q)) (lat lng : Q) :
  PngsFixed.no_data g d lat lng -> PngsFixed.temp_at g d lat lng = transparent.
Proof.
  unfold PngsFixed.no_data, PngsFixed.temp_at.
  destruct (wgs84_to_bng g lng lat) as [[x y]|]; [|done].
  simpl. by intros ->.
Qed.

Lemma rain_sun_at_no_data (rain sun : gmap string (gmap string Q))
    (r33 r66 s33 s66 lat lng : Q) :
  PngsFixed.no_data g rain lat lng \/ PngsFixed.no_data g sun lat lng ->
  PngsFixed.rain_sun_at g rain sun r33 r66 s33 s66 lat lng = transparent.
Proof.
  unfold PngsFixed.no_data, PngsFixed.rain_sun_at.
  destruct (wgs84_to_bng g lng lat) as [[x y]|]; [|done].
  simpl. intros [-> | ->]; [done|].
  by destruct (lookup_nearest rain x y).
Qed.

End FixedGenerator.

(** ** The decile images of process_temperature.py *)

Section DecileImage.
Import ProcessTemperature.
Context (to_rgb : string -> Q * Q * Q).

Lemma create_all_nan (tv : list (list (option Q))) (colors : list string) :
  temp_valid tv = [] ->
  create_temp_rgb_array to_rgb tv colors
  = fmap (M := list) (fun _ : option Q => white) <$> tv.
Proof.
  intros Hnil. unfold create_temp_rgb_array.
  by rewrite decide_True by (by rewrite Hnil).
Qed.

Lemma create_flipped (tv : list (list (option Q))) (colors : list string) :
  temp_valid tv <> [] ->
  create_temp_rgb_array to_rgb tv colors = flipud (colored to_rgb tv colors).
Proof.
  intros Hne. unfold create_temp_rgb_array.
  rewrite decide_False; [done|].
  by destruct (temp_valid tv).
Qed.

Lemma colored_length (tv : list (list (option Q))) (colors : list string) :
  length (colored to_rgb tv colors) = length tv.
Proof. unfold colored. by rewrite length_fmap. Qed.

Lemma colored_nan (tv : list (list (option Q))) (colors : list string)
    (row col : nat) (vals : list (option Q)) :
  tv !! row = Some vals -> vals !! col = Some None ->
  pixel_of (colored to_rgb tv colors) row col = Some white.
Proof.
  intros Hr Hc. unfold pixel_of, colored.
  rewrite list_lookup_fmap, Hr. simpl.
  by rewrite list_lookup_fmap, Hc.
Qed.

Lemma flipud_row {A} (img : list (list A)) (r : nat) :
  (r < length img)%nat -> flipud img !! r = img !! (length img - 1 - r)%nat.
Proof.
  intros Hr. unfold flipud. rewrite reverse_lookup by done. f_equal. lia.
Qed.

(** A NaN cell is painted white, at its own place where the frame holds
    no value at all and in the mirrored row otherwise. *)
Lemma create_nan_white (tv : list (list (option Q))) (colors : list string)
    (row col : nat) (vals : list (option Q)) :
  tv !! row = Some vals -> vals !! col = Some None ->
  exists r,
    (r = row \/ r = (length tv - 1 - row)%nat) /\
    pixel_of (create_temp_rgb_array to_rgb tv colors) r col = Some white.
Proof.
  intros Hr Hc. pose proof (lookup_lt_Some _ _ _ Hr) as Hlt.
  destruct (decide (temp_valid tv = [])) as [Hnil|Hne].
  - exists row. split; [by left|]. rewrite create_all_nan by done.
    unfold pixel_of. rewrite list_lookup_fmap, Hr. simpl.
    by rewrite list_lookup_fmap, Hc.
  - exists (length tv - 1 - row)%nat. split; [by right|].
    rewrite create_flipped by done. unfold pixel_of.
    rewrite flipud_row by (rewrite colored_length; lia).
    rewrite colored_length.
    replace (length tv - 1 - (length tv - 1 - row))%nat with row by lia.
    by apply (colored_nan tv colors row col vals).
Qed.

End DecileImage.

(** ** Orientation, missing data and empty frames *)

Lemma sample_nonempty :
  Sample.rain <> ∅ /\ Sample.sun <> ∅ /\ Sample.temp <> ∅ /\ Sample.hollow <> ∅.
Proof.
  repeat split; intros H;
    apply (f_equal (fun m : gmap string (gmap string Q) => m !! "0")) in H;
    by vm_compute in H.
Qed.

(** The claim of C2 fails on [create_temp_rgb_array]: the array it hands
    over to be written is the coloured array upside down. *)
Lemma decile_image_is_flipped :
  let colored :=
    ProcessTemperature.colored ProcessTemperature.to_rgb_hex Sample.frame
      ProcessTemperature.TEMP_COLORS in
  let written :=
    ProcessTemperature.create_temp_rgb_array ProcessTemperature.to_rgb_hex
      Sample.frame ProcessTemperature.TEMP_COLORS in
  pixel_of colored 0 0 = Some (5 # 255, 48 # 255, 97 # 255)%Q /\
  pixel_of written 0 0 = Some (103 # 255, 0 # 255, 31 # 255)%Q /\
  written <> colored /\ written = flipud colored.
Proof. repeat split; by vm_compute. Qed.

(** The rain/sun generator of generate_pngs_old_broken.py flips as well:
    the northern cell, filled into row 0, is saved in the last row. *)
Lemma old_broken_rain_sun_flipped :
  PngsOldBroken.rain_sun_pixel Sample.mg Sample.rain Sample.sun2 1 5 3 7 0 0
  = Some (179, 102, 0, 255) /\
  PngsOldBroken.generate_rain_sun_image Sample.mg
    (Some Sample.rain) (Some Sample.sun2)
  = Saved [[(55, 99, 135, 255)]; [(179, 102, 0, 255)]].
Proof. split; by vm_compute. Qed.

(** C2, amended.  The two generators of generate_pngs_fixed.py save the
    buffer as the pixel loop filled it, with no flip: row 0 holds the
    pixels computed for the north edge [LAT_MAX] and the last row those
    computed for the south edge [LAT_MIN].  [create_temp_rgb_array] of
    process_temperature.py reverses the row order of the coloured array
    before it returns it for writing: its row r shows row n - 1 - r of the
    frame. *)
Theorem saved_rows_orientation (g : globals)
    (temp rain sun : gmap string (gmap string Q)) :
  1 < IMG_HEIGHT g -> 1 < IMG_WIDTH g ->
  temp <> ∅ -> rain <> ∅ -> sun <> ∅ ->
  (exists img,
     PngsFixed.generate_temp_image g (Some temp) = Saved img /\
     fill_image (IMG_HEIGHT g) (IMG_WIDTH g) (PngsFixed.temp_pixel g temp)
     = Some img /\
     length img = Z.to_nat (IMG_HEIGHT g) /\
     forall col : nat, Z.of_nat col < IMG_WIDTH g ->
       pixel_of img 0 col
       = Some (PngsFixed.temp_at g temp (PngsFixed.lat_of g 0)
                 (PngsFixed.lng_of g (Z.of_nat col))) /\
       pixel_of img (Z.to_nat (IMG_HEIGHT g - 1)) col
       = Some (PngsFixed.temp_at g temp
                 (PngsFixed.lat_of g (IMG_HEIGHT g - 1))
                 (PngsFixed.lng_of g (Z.of_nat col)))) /\
  (exists img r33 r66 s33 s66,
     PngsFixed.generate_rain_sun_image g (Some rain) (Some sun) = Saved img /\
     fill_image (IMG_HEIGHT g) (IMG_WIDTH g)
       (PngsFixed.rain_sun_pixel g rain sun r33 r66 s33 s66) = Some img /\
     length img = Z.to_nat (IMG_HEIGHT g) /\
     forall col : nat, Z.of_nat col < IMG_WIDTH g ->
       pixel_of img 0 col
       = Some (PngsFixed.rain_sun_at g rain sun r33 r66 s33 s66
                 (PngsFixed.lat_of g 0) (PngsFixed.lng_of g (Z.of_nat col))) /\
       pixel_of img (Z.to_nat (IMG_HEIGHT g - 1)) col
       = Some (PngsFixed.rain_sun_at g rain sun r33 r66 s33 s66
                 (PngsFixed.lat_of g (IMG_HEIGHT g - 1))
                 (PngsFixed.lng_of g (Z.of_nat col)))) /\
  (PngsFixed.lat_of g 0 == LAT_MAX g)%Q /\
  (PngsFixed.lat_of g (IMG_HEIGHT g - 1) == LAT_MIN g)%Q /\
  (forall (to_rgb : string -> Q * Q * Q) (tv : list (list (option Q)))
          (colors : list string),
     ProcessTemperature.temp_valid tv <> [] ->
     ProcessTemperature.create_temp_rgb_array to_rgb tv colors
     = flipud (ProcessTemperature.colored to_rgb tv colors) /\
     forall r : nat, (r < length tv)%nat ->
       ProcessTemperature.create_temp_rgb_array to_rgb tv colors !! r
       = ProcessTemperature.colored to_rgb tv colors
           !! (length tv - 1 - r)%nat).
Proof.
  intros HH HW Ht Hr Hs.
  assert (Hlast : Z.of_nat (Z.to_nat (IMG_HEIGHT g - 1)) = IMG_HEIGHT g - 1)
    by lia.
  split; [|split; [|split; [|split]]].
  - destruct (fixed_temp_image g HH HW temp Ht)
      as (img & Hsaved & Hfill & Hlen & Hpx).
    exists img. do 3 (split; [done|]). intros col Hcol. split.
    + by rewrite (Hpx 0%nat col) by (simpl; lia).
    + rewrite (Hpx (Z.to_nat (IMG_HEIGHT g - 1)) col) by lia.
      by rewrite Hlast.
  - destruct (fixed_rain_sun_image g HH HW rain sun Hr Hs)
      as (img & r33 & r66 & s33 & s66 & Hsaved & _ & _ & Hfill & Hlen & Hpx).
    exists img, r33, r66, s33, s66. do 3 (split; [done|]).
    intros col Hcol. split.
    + by rewrite (Hpx 0%nat col) by (simpl; lia).
    + rewrite (Hpx (Z.to_nat (IMG_HEIGHT g - 1)) col) by lia.
      by rewrite Hlast.
  - unfold PngsFixed.lat_of. change (inject_Z 0) with 0%Q.
    pose proof (inject_Z_nonzero (IMG_HEIGHT g - 1) ltac:(lia)). by field.
  - unfold PngsFixed.lat_of.
    pose proof (inject_Z_nonzero (IMG_HEIGHT g - 1) ltac:(lia)). by field.
  - intros to_rgb tv colors Hne.
    rewrite (create_flipped to_rgb tv colors Hne). split; [done|].
    intros r Hlt. rewrite flipud_row by (by rewrite colored_length).
    by rewrite colored_length.
Qed.

Lemma saved_rows_orientation_witness :
  (exists img,
     PngsFixed.generate_temp_image Sample.g (Some Sample.temp) = Saved img /\
     pixel_of img 0 0
     = Some (PngsFixed.temp_at Sample.g Sample.temp
               (PngsFixed.lat_of Sample.g 0) (PngsFixed.lng_of Sample.g 0)))
  /\ (PngsFixed.lat_of Sample.g 0 == 2000 # 1)%Q
  /\ ProcessTemperature.create_temp_rgb_array ProcessTemperature.to_rgb_hex
       Sample.frame ProcessTemperature.TEMP_COLORS !! 0%nat
     = ProcessTemperature.colored ProcessTemperature.to_rgb_hex
         Sample.frame ProcessTemperature.TEMP_COLORS !! 1%nat.
Proof.
  destruct sample_nonempty as (Hr & Hs & Ht & _).
  destruct (saved_rows_orientation Sample.g Sample.temp Sample.rain Sample.sun)
    as ((img & Hsaved & _ & _ & Hpx) & _ & Hnorth & _ & Hflip);
    [by vm_compute | by vm_compute | done | done | done |].
  split; [|split].
  - exists img. split; [done|]. apply (Hpx 0%nat). by vm_compute.
  - exact Hnorth.
  - destruct (Hflip ProcessTemperature.to_rgb_hex Sample.frame
                ProcessTemperature.TEMP_COLORS) as [_ Hrow];
      [by vm_compute|].
    apply (Hrow 0%nat). simpl. lia.
Defined.

(** The claim of C3 fails on [create_temp_rgb_array]: the NaN cell of the
    sample frame is written as an opaque white pixel of a three-channel
    image, which has no alpha to be 0. *)
Lemma nan_cell_is_white :
  let written :=
    ProcessTemperature.create_temp_rgb_array ProcessTemperature.to_rgb_hex
      Sample.frame ProcessTemperature.TEMP_COLORS in
  Sample.frame !! 0%nat = Some [Some 0%Q; None] /\
  pixel_of written 1 1 = Some (1, 1, 1)%Q /\
  (forall p, pixel_of written 1 1 = Some p ->
             ProcessTemperature.alpha p <> Some 0%Q).
Proof.
  split; [done|]. split; [by vm_compute|].
  intros p Hp. vm_compute in Hp. by injection Hp as <-.
Qed.

(** C3, amended.  In the images of generate_pngs_fixed.py a pixel is fully
    transparent, all four bytes 0, when its coordinate fails to reproject
    or its nearest cell is not in the data, and in the rain/sun image when
    that holds for either of the two variables.  [create_temp_rgb_array]
    of process_temperature.py has no alpha channel: it paints a NaN cell
    white. *)
Theorem missing_data_pixels (g : globals)
    (temp rain sun : gmap string (gmap string Q)) :
  1 < IMG_HEIGHT g -> 1 < IMG_WIDTH g ->
  temp <> ∅ -> rain <> ∅ -> sun <> ∅ ->
  (exists img,
     PngsFixed.generate_temp_image g (Some temp) = Saved img /\
     forall row col : nat,
       Z.of_nat row < IMG_HEIGHT g -> Z.of_nat col < IMG_WIDTH g ->
       PngsFixed.no_data g temp (PngsFixed.lat_of g (Z.of_nat row))
         (PngsFixed.lng_of g (Z.of_nat col)) ->
       pixel_of img row col = Some transparent) /\
  (exists img,
     PngsFixed.generate_rain_sun_image g (Some rain) (Some sun) = Saved img /\
     forall row col : nat,
       Z.of_nat row < IMG_HEIGHT g -> Z.of_nat col < IMG_WIDTH g ->
       PngsFixed.no_data g rain (PngsFixed.lat_of g (Z.of_nat row))
         (PngsFixed.lng_of g (Z.of_nat col)) \/
       PngsFixed.no_data g sun (PngsFixed.lat_of g (Z.of_nat row))
         (PngsFixed.lng_of g (Z.of_nat col)) ->
       pixel_of img row col = Some transparent) /\
  (forall (to_rgb : string -> Q * Q * Q) (tv : list (list (option Q)))
          (colors : list string) (row col : nat) (vals : list (option Q)),
     tv !! row = Some vals -> vals !! col = Some None ->
     exists r,
       (r = row \/ r = (length tv - 1 - row)%nat) /\
       pixel_of (ProcessTemperature.create_temp_rgb_array to_rgb tv colors)
         r col = Some ProcessTemperature.white /\
       ProcessTemperature.alpha ProcessTemperature.white = None).
Proof.
  intros HH HW Ht Hr Hs. split; [|split].
  - destruct (fixed_temp_image g HH HW temp Ht) as (img & Hsaved & _ & _ & Hpx).
    exists img. split; [done|]. intros row col Hrow Hcol Hno.
    rewrite (Hpx row col Hrow Hcol). f_equal. by apply temp_at_no_data.
  - destruct (fixed_rain_sun_image g HH HW rain sun Hr Hs)
      as (img & r33 & r66 & s33 & s66 & Hsaved & _ & _ & _ & _ & Hpx).
    exists img. split; [done|]. intros row col Hrow Hcol Hno.
    rewrite (Hpx row col Hrow Hcol). f_equal. by apply rain_sun_at_no_data.
  - intros to_rgb tv colors row col vals Hrow Hcol.
    destruct (create_nan_white to_rgb tv colors row col vals Hrow Hcol)
      as (r & Hr' & Hpx).
    exists r. by repeat split.
Qed.

Lemma missing_data_pixels_witness :
  (exists img,
     PngsFixed.generate_temp_image Sample.g (Some Sample.temp) = Saved img /\
     pixel_of img 0 1 = Some transparent) /\
  (exists img,
     PngsFixed.generate_rain_sun_image Sample.g
       (Some Sample.rain) (Some Sample.sun) = Saved img /\
     pixel_of img 1 0 = Some transparent).
Proof.
  destruct sample_nonempty as (Hr & Hs & Ht & _).
  destruct (missing_data_pixels Sample.g Sample.temp Sample.rain Sample.sun)
    as ((img1 & Hsaved1 & Hpx1) & (img2 & Hsaved2 & Hpx2) & _);
    [by vm_compute | by vm_compute | done | done | done |].
  split.
  - exists img1. split; [done|].
    apply (Hpx1 0%nat 1%nat); by vm_compute.
  - exists img2. split; [done|].
    apply (Hpx2 1%nat 0%nat); [by vm_compute | by vm_compute |].
    right. by vm_compute.
Defined.





(** * Further properties of the code *)

(** ** The colorizers *)

Lemma clamp_monotone (x y : Q) : (x <= y)%Q -> (clamp x 0 1 <= clamp y 0 1)%Q.
Proof. intros Hxy. unfold clamp. cmp_cases; lra. Qed.

Lemma temp_index_fin (v : Q) :
  let c := clamp ((v - inject_Z (-10)) / inject_Z 42) 0 1 in
  temp_index (PFin v) (-10) 32 = Some (Z.min (Qfloor (c * inject_Z 9)) 9) /\
  OverlayImages.color_idx (PFin v)
  = Some (Z.min (Qfloor (c * inject_Z 10)) 9).
Proof.
  destruct (temp_index_clamped (PFin v)) as (c & Hc & _ & _ & Hidx & Hov).
  destruct (clamped_fin ((v - inject_Z (-10)) / inject_Z 42))
    as (c' & Hc' & Heq & _).
  simpl normalized_of in Hc. rewrite Hc in Hc'. injection Hc' as <-.
  simpl. rewrite Hidx, Hov. by rewrite Heq.
Qed.

(** The palette index never falls when the temperature rises, in
    [get_color_for_temp] and in [process_temp] alike. *)
Theorem temp_index_monotone (v1 v2 : Q) :
  (v1 <= v2)%Q ->
  exists i1 i2 j1 j2,
    temp_index (PFin v1) (-10) 32 = Some i1 /\
    temp_index (PFin v2) (-10) 32 = Some i2 /\
    OverlayImages.color_idx (PFin v1) = Some j1 /\
    OverlayImages.color_idx (PFin v2) = Some j2 /\
    i1 <= i2 /\ j1 <= j2.
Proof.
  intros Hv.
  destruct (temp_index_fin v1) as [Hi1 Hj1].
  destruct (temp_index_fin v2) as [Hi2 Hj2].
  do 4 eexists. do 4 (split; [eassumption|]).
  assert (Hc : (clamp ((v1 - inject_Z (-10)) / inject_Z 42) 0 1
                <= clamp ((v2 - inject_Z (-10)) / inject_Z 42) 0 1)%Q).
  { apply clamp_monotone. apply Qmult_le_compat_r; [lra | by vm_compute]. }
  split; apply Z.min_le_compat_r, Qfloor_resp_le;
    (apply Qmult_le_compat_r; [done | by vm_compute]).
Qed.

Lemma temp_index_monotone_witness :
  exists i1 i2, temp_index (PFin 8) (-10) 32 = Some i1 /\
                temp_index (PFin 15) (-10) 32 = Some i2 /\ i1 <= i2.
Proof.
  destruct (temp_index_monotone 8 15) as (i1 & i2 & _ & _ & H1 & H2 & _ & _ & H & _);
    [by vm_compute|].
  by exists i1, i2.
Defined.

(** On every float [process_temp] picks the index of [get_color_for_temp]
    or the next one: multiplying by the palette length instead of the last
    index moves a value up by one colour at most. *)
Theorem overlay_index_next_to_fixed (temp : pyfloat) :
  exists i j,
    temp_index temp (-10) 32 = Some i /\
    OverlayImages.color_idx temp = Some j /\
    i <= j <= i + 1.
Proof.
  destruct (temp_index_clamped temp) as (c & _ & H0 & H1 & Hidx & Hov).
  do 2 eexists. do 2 (split; [eassumption|]).
  change (inject_Z 9) with (9 # 1)%Q. change (inject_Z 10) with (10 # 1)%Q.
  assert (Hle : Qfloor (c * (9 # 1)) <= Qfloor (c * (10 # 1)))
    by (apply Qfloor_resp_le; lra).
  assert (Hlt : Qfloor (c * (10 # 1)) < Qfloor (c * (9 # 1)) + 2).
  { apply floor_lt. pose proof (Qlt_floor (c * (9 # 1))) as Hf.
    rewrite inject_Z_plus in *.
    change (inject_Z 2) with 2%Q. change (inject_Z 1) with 1%Q in Hf. lra. }
  lia.
Qed.

(** [temp_colormap] of generate_leaflet_images.py drops the [min] against
    the last index and loses nothing: on every float it computes the index
    and returns the colour of [get_color_for_temp], so it never indexes
    outside the palette. *)
Theorem temp_colormap_same_color (temp : pyfloat) :
  LeafletImages.color_idx temp = temp_index temp (-10) 32 /\
  LeafletImages.temp_colormap temp = get_color_for_temp temp (-10) 32 /\
  is_Some (LeafletImages.temp_colormap temp).
Proof.
  destruct (temp_index_clamped temp) as (c & Hc & H0 & H1 & Hidx & _).
  destruct (int_scaled c 9 ltac:(lia) H0 H1) as [Hint Hr].
  assert (Hl : LeafletImages.color_idx temp = temp_index temp (-10) 32).
  { rewrite Hidx. unfold LeafletImages.color_idx.
    change (Z.of_nat (length TEMP_COLORS) - 1) with 9.
    change (32 - -10) with 42.
    assert (Hn : PyFloat.div_int (PyFloat.sub_int temp (-10)) 42
                 = Some (normalized_of temp)) by (by destruct temp).
    rewrite Hn. cbn [mbind option_bind]. rewrite Hc.
    cbn [PyFloat.mul_int PyFloat.int]. rewrite Hint. f_equal. lia. }
  split; [done|].
  unfold LeafletImages.temp_colormap, get_color_for_temp. rewrite Hl.
  split; [done|]. rewrite Hidx. cbn [mbind option_bind].
  destruct (palette_index_some (Z.min (Qfloor (c * inject_Z 9)) 9)
              ltac:(lia)) as (col & -> & _). by eexists.
Qed.

(** ** The bivariate classifier *)

Lemma tertile_level_range (v b33 b66 : Q) : 0 <= tertile_level v b33 b66 <= 2.
Proof. unfold tertile_level. cmp_cases; lia. Qed.

Lemma bivariate_colors_some (rl sl : Z) :
  0 <= rl <= 2 -> 0 <= sl <= 2 -> is_Some (BIVARIATE_COLORS (rl, sl)).
Proof.
  intros Hr Hs.
  assert (rl = 0 \/ rl = 1 \/ rl = 2) as [-> | [-> | ->]] by lia;
    assert (sl = 0 \/ sl = 1 \/ sl = 2) as [-> | [-> | ->]] by lia;
    by eexists.
Qed.

(** Whatever the two values and the four breakpoints are,
    [get_color_for_rain_sun] finds its key in [BIVARIATE_COLORS]: both
    levels are 0, 1 or 2 and no KeyError is raised. *)
Theorem rain_sun_color_total (rain sun rain33 rain66 sun33 sun66 : Q) :
  exists c,
    get_color_for_rain_sun rain sun rain33 rain66 sun33 sun66 = Some c /\
    BIVARIATE_COLORS (tertile_level rain rain33 rain66,
                      tertile_level sun sun33 sun66) = Some c /\
    0 <= tertile_level rain rain33 rain66 <= 2 /\
    0 <= tertile_level sun sun33 sun66 <= 2.
Proof.
  pose proof (tertile_level_range rain rain33 rain66) as Hr.
  pose proof (tertile_level_range sun sun33 sun66) as Hs.
  destruct (bivariate_colors_some _ _ Hr Hs) as [c Hc].
  exists c. split; [exact Hc|]. split; [exact Hc|]. by split.
Qed.

(** A larger value never gets a lower level, whatever the breakpoints. *)
Theorem tertile_level_monotone (v1 v2 b33 b66 : Q) :
  (v1 <= v2)%Q -> tertile_level v1 b33 b66 <= tertile_level v2 b33 b66.
Proof. intros Hv. unfold tertile_level. cmp_cases; first [lia | lra]. Qed.

Lemma tertile_level_monotone_witness :
  tertile_level 3 5 9 <= tertile_level 7 5 9.
Proof. apply tertile_level_monotone. by vm_compute. Defined.

(** ** Sorting and breakpoints *)

Lemma insert_sorted_perm (x : Q) (l : list Q) : Py.insert_sorted x l ≡ₚ x :: l.
Proof.
  induction l as [|y l IH]; [done|]. simpl.
  destruct (Py.ltb y x); [|done].
  rewrite IH. apply Permutation_swap.
Qed.

Lemma sort_perm (l : list Q) : Py.sort l ≡ₚ l.
Proof.
  induction l as [|x l IH]; [done|]. simpl.
  by rewrite insert_sorted_perm, IH.
Qed.

Lemma sort_length (l : list Q) : length (Py.sort l) = length l.
Proof. by rewrite sort_perm. Qed.

Lemma nondecreasing_cons (x : Q) (l : list Q) :
  ProcessTemperature.nondecreasing (x :: l) <->
  Forall (Qle x) l /\ ProcessTemperature.nondecreasing l.
Proof.
  unfold ProcessTemperature.nondecreasing. split.
  - intros H. split.
    + apply Forall_lookup. intros j b Hj.
      by apply (H 0%nat (S j) x b); [lia|..].
    + intros i j a b Hij Hi Hj. by apply (H (S i) (S j) a b); [lia|..].
  - intros [Hx Hl] i j a b Hij Hi Hj.
    destruct i as [|i], j as [|j]; simpl in *; simplify_eq.
    + apply Qle_refl.
    + by eapply (proj1 (Forall_lookup _ _) Hx).
    + lia.
    + apply (Hl i j a b); [lia|done..].
Qed.

Lemma insert_sorted_sorted (x : Q) (l : list Q) :
  ProcessTemperature.nondecreasing l ->
  ProcessTemperature.nondecreasing (Py.insert_sorted x l).
Proof.
  induction l as [|y l IH]; intros Hl; simpl.
  - apply nondecreasing_cons. split; [by constructor|done].
  - apply nondecreasing_cons in Hl as [Hy Hl].
    destruct (Py.ltb y x) eqn:E; [apply ltb_true in E | apply ltb_false in E].
    + apply nondecreasing_cons. split; [|by apply IH].
      rewrite insert_sorted_perm. constructor; [lra | done].
    + apply nondecreasing_cons. split.
      * constructor; [done|].
        eapply Forall_impl; [exact Hy|]. intros z Hz. simpl in Hz. lra.
      * apply nondecreasing_cons. by split.
Qed.

Lemma sort_sorted (l : list Q) : ProcessTemperature.nondecreasing (Py.sort l).
Proof.
  induction l as [|x l IH]; simpl.
  - by intros i j a b _ Hi.
  - by apply insert_sorted_sorted.
Qed.

Lemma index_nonneg_lookup {A} (l : list A) (i : Z) (x : A) :
  0 <= i -> Py.index l i = Some x -> l !! Z.to_nat i = Some x.
Proof.
  intros Hi. unfold Py.index.
  replace (0 <=? i) with true by (symmetry; apply Z.leb_le; lia).
  destruct (i <? Z.of_nat (length l)); simpl; [done|].
  replace (i <? 0) with false by (symmetry; apply Z.ltb_ge; lia).
  by rewrite andb_false_r.
Qed.

(** Two entries of the sorted values taken at rising ranks are values of
    the data, in rising order. *)
Lemma ranks_of_sorted (data : gmap string (gmap string Q)) (i j : Z) (a b : Q) :
  0 <= i <= j ->
  Py.index (Py.sort (all_values data)) i = Some a ->
  Py.index (Py.sort (all_values data)) j = Some b ->
  a ∈ all_values data /\ b ∈ all_values data /\ (a <= b)%Q.
Proof.
  intros Hij Ha%index_nonneg_lookup Hb%index_nonneg_lookup; [|lia..].
  split; [|split].
  - rewrite <- (sort_perm (all_values data)). by eapply list_elem_of_lookup_2.
  - rewrite <- (sort_perm (all_values data)). by eapply list_elem_of_lookup_2.
  - apply (sort_sorted (all_values data) (Z.to_nat i) (Z.to_nat j)); [lia|done..].
Qed.

(** Where the data holds a value, the two breakpoints of
    generate_pngs_fixed.py are values of the data and the lower one is not
    above the upper one. *)
Theorem fixed_breakpoints_ordered (data : gmap string (gmap string Q)) :
  all_values data <> [] ->
  exists b33 b66,
    PngsFixed.breakpoints data = Some (b33, b66) /\
    b33 ∈ all_values data /\ b66 ∈ all_values data /\ (b33 <= b66)%Q.
Proof.
  intros Hne. unfold PngsFixed.breakpoints.
  set (values := Py.sort (all_values data)).
  assert (Hn : 0 < Z.of_nat (length values)).
  { subst values. rewrite sort_length. destruct (all_values data); [done|].
    simpl. lia. }
  replace (0 <? Z.of_nat (length values)) with true
    by (symmetry; by apply Z.ltb_lt).
  destruct (index_in_range values (Z.of_nat (length values) `div` 3))
    as [b33 H33].
  { split; [apply Z.div_pos; lia|]. apply Z.div_lt_upper_bound; lia. }
  destruct (index_in_range values ((2 * Z.of_nat (length values)) `div` 3))
    as [b66 H66].
  { split; [apply Z.div_pos; lia|]. apply Z.div_lt_upper_bound; lia. }
  rewrite H33, H66. exists b33, b66. split; [done|].
  apply (ranks_of_sorted data (Z.of_nat (length values) `div` 3)
           ((2 * Z.of_nat (length values)) `div` 3)); [|done..].
  split; [apply Z.div_pos; lia|]. apply Z.div_le_mono; lia.
Qed.

Lemma sample_rain_values : all_values Sample.rain <> [].
Proof. by vm_compute. Qed.

Lemma fixed_breakpoints_ordered_witness :
  exists b33 b66,
    PngsFixed.breakpoints Sample.rain = Some (b33, b66) /\ (b33 <= b66)%Q.
Proof.
  destruct (fixed_breakpoints_ordered Sample.rain sample_rain_values)
    as (b33 & b66 & H & _ & _ & Hle).
  exists b33, b66. exact (conj H Hle).
Defined.

Lemma int_fraction_of_length (n : nat) (k : Q) :
  (0 <= k)%Q -> (k < 1)%Q -> (0 < n)%nat ->
  0 <= Py.int (inject_Z (Z.of_nat n) * k) < Z.of_nat n.
Proof.
  intros Hk0 Hk1 Hn.
  assert (Hn' : (inject_Z 0 < inject_Z (Z.of_nat n))%Q)
    by (rewrite <- Zlt_Qlt; lia).
  change (inject_Z 0) with 0%Q in Hn'.
  assert (Hlo : (0 <= inject_Z (Z.of_nat n) * k)%Q)
    by (apply Qmult_le_0_compat; lra).
  assert (Hhi : (inject_Z (Z.of_nat n) * k < inject_Z (Z.of_nat n))%Q).
  { rewrite <- (Qmult_1_r (inject_Z (Z.of_nat n))) at 2.
    by apply Qmult_lt_l. }
  rewrite int_nonneg_floor by done. split.
  - by apply (floor_ge _ 0).
  - by apply floor_lt.
Qed.

Lemma int_fraction_le (n : nat) :
  Py.int (inject_Z (Z.of_nat n) * (33 # 100))
  <= Py.int (inject_Z (Z.of_nat n) * (66 # 100)).
Proof.
  assert (Hn' : (inject_Z 0 <= inject_Z (Z.of_nat n))%Q)
    by (rewrite <- Zle_Qle; lia).
  change (inject_Z 0) with 0%Q in Hn'.
  rewrite !int_nonneg_floor by (apply Qmult_le_0_compat; lra).
  apply Qfloor_resp_le. lra.
Qed.

Lemma old_breakpoints_empty (data : gmap string (gmap string Q)) :
  all_values data = [] -> PngsOldBroken.breakpoints data = None.
Proof. intros Hv. unfold PngsOldBroken.breakpoints. by rewrite Hv. Qed.

Lemma old_breakpoints_values (data : gmap string (gmap string Q)) :
  all_values data <> [] ->
  exists b33 b66,
    PngsOldBroken.breakpoints data = Some (b33, b66) /\
    b33 ∈ all_values data /\ b66 ∈ all_values data /\ (b33 <= b66)%Q.
Proof.
  intros Hne. unfold PngsOldBroken.breakpoints.
  set (vals := Py.sort (all_values data)).
  set (n := length vals).
  assert (Hn : (0 < n)%nat).
  { subst n vals. rewrite sort_length. destruct (all_values data); [done|].
    simpl. lia. }
  pose proof (int_fraction_of_length n (33 # 100)
                ltac:(by vm_compute) ltac:(by vm_compute) Hn) as H33.
  pose proof (int_fraction_of_length n (66 # 100)
                ltac:(by vm_compute) ltac:(by vm_compute) Hn) as H66.
  destruct (index_in_range vals
              (Py.int (inject_Z (Z.of_nat n) * (33 # 100))) H33) as [a Ha].
  destruct (index_in_range vals
              (Py.int (inject_Z (Z.of_nat n) * (66 # 100))) H66) as [b Hb].
  exists a, b. rewrite Ha, Hb. split; [done|].
  apply (ranks_of_sorted data
           (Py.int (inject_Z (Z.of_nat n) * (33 # 100)))
           (Py.int (inject_Z (Z.of_nat n) * (66 # 100))) a b);
    [|done..].
  split; [lia|]. apply int_fraction_le.
Qed.

(** The breakpoints of generate_pngs_old_broken.py and generate_pngs.py,
    which index the sorted values at [int(len * 0.33)] and
    [int(len * 0.66)] with no guard, raise IndexError exactly when the data
    holds no value; otherwise they are values of the data in rising order.
    generate_pngs.py has the same text as generate_pngs_old_broken.py. *)
Theorem unguarded_breakpoints (data : gmap string (gmap string Q)) :
  Pngs.breakpoints data = PngsOldBroken.breakpoints data /\
  (PngsOldBroken.breakpoints data = None <-> all_values data = []) /\
  (forall b33 b66,
     PngsOldBroken.breakpoints data = Some (b33, b66) ->
     b33 ∈ all_values data /\ b66 ∈ all_values data /\ (b33 <= b66)%Q).
Proof.
  split; [reflexivity|]. split; [split|].
  - intros Hnone. destruct (all_values data) as [|v l] eqn:Hv; [done|].
    destruct (old_breakpoints_values data) as (b33 & b66 & Hb & _);
      [by rewrite Hv|].
    by rewrite Hb in Hnone.
  - apply old_breakpoints_empty.
  - intros b33 b66 Hb.
    destruct (all_values data) as [|v l] eqn:Hv.
    + rewrite old_breakpoints_empty in Hb by done. discriminate Hb.
    + destruct (old_breakpoints_values data) as (a & b & Hab & Hin);
        [by rewrite Hv|].
      rewrite Hab in Hb. injection Hb as <- <-. by rewrite Hv in Hin.
Qed.

Lemma unguarded_breakpoints_witness :
  PngsOldBroken.breakpoints Sample.hollow = None /\
  (forall b33 b66,
     PngsOldBroken.breakpoints Sample.rain = Some (b33, b66) ->
     (b33 <= b66)%Q).
Proof.
  destruct (unguarded_breakpoints Sample.hollow) as (_ & [_ Hnone] & _).
  destruct (unguarded_breakpoints Sample.rain) as (_ & _ & Hsome).
  split; [apply Hnone; by vm_compute|].
  intros b33 b66 H. by destruct (Hsome b33 b66 H) as (_ & _ & Hle).
Defined.

(** ** The two images of generate_pngs_old_broken.py *)

Lemma values_nonempty (data : gmap string (gmap string Q)) :
  all_values data <> [] -> data <> ∅.
Proof. intros Hv ->. apply Hv. unfold all_values. by rewrite map_to_list_empty. Qed.

Section OldBroken.
Context (g : merc_globals).
Hypothesis height_pos : 0 < M_IMG_HEIGHT g.
Hypothesis width_pos : 0 < M_IMG_WIDTH g.

Lemma old_pixel_merc (row col : Z) :
  PngsOldBroken.pixel_merc g row col
  = Some (PngsOldBroken.merc_x_of g col, PngsOldBroken.merc_y_of g row).
Proof.
  unfold PngsOldBroken.pixel_merc. rewrite !truediv_some by lia. reflexivity.
Qed.

Lemma old_temp_image (temp : gmap string (gmap string Q)) :
  temp <> ∅ ->
  exists img,
    PngsOldBroken.generate_temp_image g (Some temp) = Saved img /\
    length img = Z.to_nat (M_IMG_HEIGHT g) /\
    forall row col : nat,
      Z.of_nat row < M_IMG_HEIGHT g -> Z.of_nat col < M_IMG_WIDTH g ->
      pixel_of img row col
      = Some (PngsOldBroken.temp_at g temp
                (PngsOldBroken.merc_x_of g (Z.of_nat col))
                (PngsOldBroken.merc_y_of g (Z.of_nat row))).
Proof.
  intros Hd. unfold PngsOldBroken.generate_temp_image.
  rewrite decide_False by done.
  assert (Hpx : forall row col,
            PngsOldBroken.temp_pixel g temp row col
            = Some (PngsOldBroken.temp_at g temp
                      (PngsOldBroken.merc_x_of g col)
                      (PngsOldBroken.merc_y_of g row))).
  { intros. unfold PngsOldBroken.temp_pixel. by rewrite old_pixel_merc. }
  destruct (fill_image_some (M_IMG_HEIGHT g) (M_IMG_WIDTH g)
              (PngsOldBroken.temp_pixel g temp)) as [img Himg].
  { intros. by rewrite Hpx. }
  rewrite Himg. exists img. split; [done|].
  split; [by eapply fill_image_height|].
  intros row col Hrow Hcol.
  destruct (fill_image_pixel _ _ _ img row col Himg Hrow Hcol)
    as (p & -> & Hp).
  by rewrite Hpx in Hp.
Qed.

Lemma old_rain_sun_image (rain sun : gmap string (gmap string Q)) :
  all_values rain <> [] -> all_values sun <> [] ->
  exists img r33 r66 s33 s66,
    PngsOldBroken.generate_rain_sun_image g (Some rain) (Some sun) = Saved img /\
    PngsOldBroken.breakpoints rain = Some (r33, r66) /\
    PngsOldBroken.breakpoints sun = Some (s33, s66) /\
    length img = Z.to_nat (M_IMG_HEIGHT g) /\
    forall row col : nat,
      Z.of_nat row < M_IMG_HEIGHT g -> Z.of_nat col < M_IMG_WIDTH g ->
      pixel_of img row col
      = Some (PngsOldBroken.rain_sun_at g rain sun r33 r66 s33 s66
                (PngsOldBroken.merc_x_of g (Z.of_nat col))
                (PngsOldBroken.merc_y_of g
                   (M_IMG_HEIGHT g - 1 - Z.of_nat row))).
Proof.
  intros Hr Hs. unfold PngsOldBroken.generate_rain_sun_image.
  rewrite !decide_False by (by apply values_nonempty).
  destruct (old_breakpoints_values rain Hr) as (r33 & r66 & Hbr & _).
  destruct (old_breakpoints_values sun Hs) as (s33 & s66 & Hbs & _).
  rewrite Hbr, Hbs.
  assert (Hpx : forall row col,
            PngsOldBroken.rain_sun_pixel g rain sun r33 r66 s33 s66 row col
            = Some (PngsOldBroken.rain_sun_at g rain sun r33 r66 s33 s66
                      (PngsOldBroken.merc_x_of g col)
                      (PngsOldBroken.merc_y_of g row))).
  { intros. unfold PngsOldBroken.rain_sun_pixel. by rewrite old_pixel_merc. }
  destruct (fill_image_some (M_IMG_HEIGHT g) (M_IMG_WIDTH g)
              (PngsOldBroken.rain_sun_pixel g rain sun r33 r66 s33 s66))
    as [img Himg].
  { intros. by rewrite Hpx. }
  rewrite Himg. exists (flipud img), r33, r66, s33, s66.
  pose proof (fill_image_height _ _ _ img Himg) as Hlen.
  do 3 (split; [done|]).
  split; [unfold flipud; by rewrite length_reverse|].
  intros row col Hrow Hcol. unfold pixel_of.
  rewrite flipud_row by lia.
  destruct (fill_image_pixel _ _ _ img (length img - 1 - row) col Himg)
    as (p & Hp & Hq); [lia | done |].
  unfold pixel_of in Hp. rewrite Hp. rewrite Hpx in Hq.
  rewrite <- Hq. do 3 f_equal. lia.
Qed.

End OldBroken.

(** In generate_pngs_old_broken.py the two images of one period are upside
    down to each other: the temperature image is saved as filled, its row
    [row] computed for the Mercator northing of that row, while row [row]
    of the rain/sun image holds what the loop computed for row
    H - 1 - [row].  Row 0 of the loop is the north edge [merc_y_max]. *)
Theorem old_broken_images_mirrored (g : merc_globals)
    (temp rain sun : gmap string (gmap string Q)) :
  0 < M_IMG_HEIGHT g -> 0 < M_IMG_WIDTH g ->
  temp <> ∅ -> all_values rain <> [] -> all_values sun <> [] ->
  (exists img,
     PngsOldBroken.generate_temp_image g (Some temp) = Saved img /\
     length img = Z.to_nat (M_IMG_HEIGHT g) /\
     forall row col : nat,
       Z.of_nat row < M_IMG_HEIGHT g -> Z.of_nat col < M_IMG_WIDTH g ->
       pixel_of img row col
       = Some (PngsOldBroken.temp_at g temp
                 (PngsOldBroken.merc_x_of g (Z.of_nat col))
                 (PngsOldBroken.merc_y_of g (Z.of_nat row)))) /\
  (exists img r33 r66 s33 s66,
     PngsOldBroken.generate_rain_sun_image g (Some rain) (Some sun)
     = Saved img /\
     PngsOldBroken.breakpoints rain = Some (r33, r66) /\
     PngsOldBroken.breakpoints sun = Some (s33, s66) /\
     length img = Z.to_nat (M_IMG_HEIGHT g) /\
     forall row col : nat,
       Z.of_nat row < M_IMG_HEIGHT g -> Z.of_nat col < M_IMG_WIDTH g ->
       pixel_of img row col
       = Some (PngsOldBroken.rain_sun_at g rain sun r33 r66 s33 s66
                 (PngsOldBroken.merc_x_of g (Z.of_nat col))
                 (PngsOldBroken.merc_y_of g
                    (M_IMG_HEIGHT g - 1 - Z.of_nat row)))) /\
  (PngsOldBroken.merc_y_of g 0 == merc_y_max g)%Q.
Proof.
  intros HH HW Ht Hr Hs. split; [|split].
  - by apply old_temp_image.
  - by apply old_rain_sun_image.
  - unfold PngsOldBroken.merc_y_of. change (inject_Z 0) with 0%Q.
    pose proof (inject_Z_nonzero (M_IMG_HEIGHT g) ltac:(lia)). by field.
Qed.

Lemma old_broken_images_mirrored_witness :
  exists img,
    PngsOldBroken.generate_rain_sun_image Sample.mg
      (Some Sample.rain) (Some Sample.sun2) = Saved img /\
    pixel_of img 1 0
    = Some (PngsOldBroken.rain_sun_at Sample.mg Sample.rain Sample.sun2
              1 5 3 7 (PngsOldBroken.merc_x_of Sample.mg 0)
              (PngsOldBroken.merc_y_of Sample.mg 0)).
Proof.
  destruct (old_broken_images_mirrored Sample.mg Sample.temp
              Sample.rain Sample.sun2)
    as (_ & (img & r33 & r66 & s33 & s66 & Hsaved & Hbr & Hbs & _ & Hpx) & _);
    [by vm_compute | by vm_compute | apply sample_nonempty
    | by vm_compute | by vm_compute |].
  exists img. split; [done|].
  rewrite (Hpx 1%nat 0%nat) by (by vm_compute).
  vm_compute in Hbr, Hbs. by injection Hbr as <- <-; injection Hbs as <- <-.
Defined.

(** ** Where the pixels are sampled *)



Lemma scaled_within (f d : Q) :
  (0 <= f)%Q -> (f <= 1)%Q -> (0 <= d)%Q -> (0 <= f * d)%Q /\ (f * d <= d)%Q.
Proof.
  intros H0 H1 Hd. split; [by apply Qmult_le_0_compat|].
  rewrite <- (Qmult_1_l d) at 2. by apply Qmult_le_compat_r.
Qed.



(** In generate_pngs.py, which divides by the image height and width, no
    pixel of the 3000 x 2000 image raises and none is sampled on the south
    or the east bound: every latitude lies in (49.5, 61.0] and every
    longitude in [-8.5, 2.0). *)
Theorem pngs_pixels_short_of_south_east (row col : Z) :
  0 <= row < Pngs.IMG_HEIGHT -> 0 <= col < Pngs.IMG_WIDTH ->
  exists lat lng,
    Pngs.pixel_latlng row col = Some (lat, lng) /\
    (Pngs.LAT_MIN < lat)%Q /\ (lat <= Pngs.LAT_MAX)%Q /\
    (Pngs.LNG_MIN <= lng)%Q /\ (lng < Pngs.LNG_MAX)%Q.
Proof.
  unfold Pngs.IMG_HEIGHT, Pngs.IMG_WIDTH. intros Hrow Hcol.
  unfold Pngs.pixel_latlng, Pngs.IMG_HEIGHT, Pngs.IMG_WIDTH.
  rewrite !truediv_some by lia. do 2 eexists. split; [reflexivity|].
  assert (Hr0 : (inject_Z 0 <= inject_Z row)%Q) by (rewrite <- Zle_Qle; lia).
  assert (Hr1 : (inject_Z row < inject_Z 3000)%Q) by (rewrite <- Zlt_Qlt; lia).
  assert (Hc0 : (inject_Z 0 <= inject_Z col)%Q) by (rewrite <- Zle_Qle; lia).
  assert (Hc1 : (inject_Z col < inject_Z 2000)%Q) by (rewrite <- Zlt_Qlt; lia).
  change (inject_Z 0) with 0%Q in *.
  change (inject_Z 3000) with (3000 # 1)%Q in *.
  change (inject_Z 2000) with (2000 # 1)%Q in *.
  unfold Pngs.LAT_MIN, Pngs.LAT_MAX, Pngs.LNG_MIN, Pngs.LNG_MAX.
  assert (Hfr : (inject_Z row / (3000 # 1) * (3000 # 1) == inject_Z row)%Q)
    by (by field).
  assert (Hfc : (inject_Z col / (2000 # 1) * (2000 # 1) == inject_Z col)%Q)
    by (by field).
  set (fr := (inject_Z row / (3000 # 1))%Q) in *.
  set (fc := (inject_Z col / (2000 # 1))%Q) in *.
  repeat split; lra.
Qed.

Lemma pngs_pixels_short_of_south_east_witness :
  exists lat lng,
    Pngs.pixel_latlng 2999 1999 = Some (lat, lng) /\
    (Pngs.LAT_MIN < lat)%Q /\ (lng < Pngs.LNG_MAX)%Q.
Proof.
  destruct (pngs_pixels_short_of_south_east 2999 1999)
    as (lat & lng & H & Hlat & _ & _ & Hlng); [by vm_compute..|].
  by exists lat, lng.
Defined.

(** ** What a pixel of the fixed generator can be *)

Lemma color_for_temp_some (temp : pyfloat) :
  exists c, get_color_for_temp temp (-10) 32 = Some c /\ c ∈ TEMP_COLORS.
Proof.
  destruct (temp_index_clamped temp) as (c & _ & H0 & H1 & Hidx & _).
  destruct (int_scaled c 9 ltac:(lia) H0 H1) as [_ Hr].
  destruct (palette_index_some (Z.min (Qfloor (c * inject_Z 9)) 9)
              ltac:(lia)) as (col & Hcol & _ & Hin).
  exists col. unfold get_color_for_temp. rewrite Hidx. by split.
Qed.

(** A pixel of the temperature image is transparent exactly where there is
    no value for its coordinate; everywhere else it is opaque, alpha 255,
    in the palette colour of the value of the nearest cell. *)
Theorem fixed_temp_pixel_cases (g : globals)
    (temp : gmap string (gmap string Q)) :
  1 < IMG_HEIGHT g -> 1 < IMG_WIDTH g -> temp <> ∅ ->
  exists img,
    PngsFixed.generate_temp_image g (Some temp) = Saved img /\
    forall row col : nat,
      Z.of_nat row < IMG_HEIGHT g -> Z.of_nat col < IMG_WIDTH g ->
      let lat := PngsFixed.lat_of g (Z.of_nat row) in
      let lng := PngsFixed.lng_of g (Z.of_nat col) in
      (PngsFixed.no_data g temp lat lng /\
       pixel_of img row col = Some transparent) \/
      (exists bng_x bng_y v r gr b,
         wgs84_to_bng g lng lat = Some (bng_x, bng_y) /\
         lookup_nearest temp bng_x bng_y = Some v /\
         get_color_for_temp (PFin v) (-10) 32 = Some (r, gr, b) /\
         (r, gr, b) ∈ TEMP_COLORS /\
         pixel_of img row col = Some (r, gr, b, 255)).
Proof.
  intros HH HW Ht.
  destruct (fixed_temp_image g HH HW temp Ht) as (img & Hsaved & _ & _ & Hpx).
  exists img. split; [done|]. intros row col Hrow Hcol lat lng.
  rewrite (Hpx row col Hrow Hcol). fold lat lng.
  unfold PngsFixed.no_data, PngsFixed.temp_at.
  destruct (wgs84_to_bng g lng lat) as [[x y]|] eqn:Ht'; [|by left].
  cbn [mbind option_bind].
  destruct (lookup_nearest temp x y) as [v|] eqn:Hv; [|by left].
  right. cbn [mbind option_bind].
  destruct (color_for_temp_some (PFin v)) as ([[r gr] b] & Hc & Hin).
  exists x, y, v, r, gr, b. rewrite Hc. by repeat split.
Qed.

Lemma fixed_temp_pixel_cases_witness :
  exists img,
    PngsFixed.generate_temp_image Sample.g (Some Sample.temp) = Saved img /\
    pixel_of img 0 0 = Some (253, 219, 199, 255).
Proof.
  destruct (fixed_temp_pixel_cases Sample.g Sample.temp)
    as (img & Hsaved & Hpx);
    [by vm_compute | by vm_compute | apply sample_nonempty |].
  exists img. split; [done|].
  destruct (Hpx 0%nat 0%nat) as [[Hno _] | (x & y & v & r & gr & b & Ht & Hv & Hc & _ & Hp)];
    [by vm_compute | by vm_compute | by vm_compute in Hno |].
  vm_compute in Ht. injection Ht as <- <-.
  vm_compute in Hv. injection Hv as <-.
  vm_compute in Hc. by injection Hc as <- <- <-.
Defined.

(** A pixel of the rain/sun image is transparent exactly where one of the
    two variables has no value for its coordinate; everywhere else it is
    opaque in the colour [BIVARIATE_COLORS] holds for the two levels. *)
Theorem fixed_rain_sun_pixel_cases (g : globals)
    (rain sun : gmap string (gmap string Q)) :
  1 < IMG_HEIGHT g -> 1 < IMG_WIDTH g -> rain <> ∅ -> sun <> ∅ ->
  exists img r33 r66 s33 s66,
    PngsFixed.generate_rain_sun_image g (Some rain) (Some sun) = Saved img /\
    PngsFixed.breakpoints rain = Some (r33, r66) /\
    PngsFixed.breakpoints sun = Some (s33, s66) /\
    forall row col : nat,
      Z.of_nat row < IMG_HEIGHT g -> Z.of_nat col < IMG_WIDTH g ->
      let lat := PngsFixed.lat_of g (Z.of_nat row) in
      let lng := PngsFixed.lng_of g (Z.of_nat col) in
      ((PngsFixed.no_data g rain lat lng \/ PngsFixed.no_data g sun lat lng) /\
       pixel_of img row col = Some transparent) \/
      (exists bng_x bng_y vr vs r gr b,
         wgs84_to_bng g lng lat = Some (bng_x, bng_y) /\
         lookup_nearest rain bng_x bng_y = Some vr /\
         lookup_nearest sun bng_x bng_y = Some vs /\
         BIVARIATE_COLORS (tertile_level vr r33 r66, tertile_level vs s33 s66)
         = Some (r, gr, b) /\
         pixel_of img row col = Some (r, gr, b, 255)).
Proof.
  intros HH HW Hr Hs.
  destruct (fixed_rain_sun_image g HH HW rain sun Hr Hs)
    as (img & r33 & r66 & s33 & s66 & Hsaved & Hbr & Hbs & _ & _ & Hpx).
  exists img, r33, r66, s33, s66. do 3 (split; [done|]).
  intros row col Hrow Hcol lat lng.
  rewrite (Hpx row col Hrow Hcol). fold lat lng.
  unfold PngsFixed.no_data, PngsFixed.rain_sun_at.
  destruct (wgs84_to_bng g lng lat) as [[x y]|] eqn:Ht'; [|left; by split; [left|]].
  cbn [mbind option_bind].
  destruct (lookup_nearest rain x y) as [vr|] eqn:Hvr;
    [|left; by split; [left|]].
  cbn [mbind option_bind].
  destruct (lookup_nearest sun x y) as [vs|] eqn:Hvs;
    [|left; by split; [right|]].
  right. cbn [mbind option_bind]. unfold get_color_for_rain_sun.
  destruct (bivariate_colors_some _ _ (tertile_level_range vr r33 r66)
              (tertile_level_range vs s33 s66)) as [[[r gr] b] Hc].
  exists x, y, vr, vs, r, gr, b. rewrite Hc. by repeat split.
Qed.

Lemma fixed_rain_sun_pixel_cases_witness :
  exists img,
    PngsFixed.generate_rain_sun_image Sample.g
      (Some Sample.rain) (Some Sample.sun) = Saved img /\
    pixel_of img 1 0 = Some transparent.
Proof.
  destruct (fixed_rain_sun_pixel_cases Sample.g Sample.rain Sample.sun)
    as (img & r33 & r66 & s33 & s66 & Hsaved & _ & _ & Hpx);
    [by vm_compute | by vm_compute | apply sample_nonempty..|].
  exists img. split; [done|].
  destruct (Hpx 1%nat 0%nat)
    as [[_ Hp] | (x & y & vr & vs & r & gr & b & Ht & Hvr & Hvs & _)];
    [by vm_compute | by vm_compute | done |].
  vm_compute in Ht. injection Ht as <- <-. by vm_compute in Hvs.
Defined.

(** ** What the sparse month holds *)

Section SparseContent.
Import ExtractData.

Lemma get_foldl_sound (l : list (nat * nat * Q))
    (m : gmap string (gmap string Q)) (xk yk : string) (w : Q) :
  get (foldl store_cell m l) xk yk = Some w ->
  get m xk yk = Some w \/
  exists row col v, (row, col, v) ∈ l /\ xk = x_key_of col /\
                    yk = y_key_of row /\ w = Py.round1 v.
Proof.
  revert m. induction l as [|[[row col] v] l IH]; intros m Hget; [by left|].
  cbn [foldl] in Hget. destruct (IH _ Hget) as [Hm | (r & c & u & Hin & H)].
  - rewrite get_store_cell in Hm.
    destruct (decide (xk = x_key_of col /\ yk = y_key_of row)) as [[-> ->]|_].
    + right. exists row, col, v. injection Hm as <-.
      split; [by left | done].
    + by left.
  - right. exists r, c, u. split; [by right | done].
Qed.

Lemma get_empty (xk yk : string) :
  get (∅ : gmap string (gmap string Q)) xk yk = None.
Proof. unfold get. by rewrite lookup_empty. Qed.

(** Nothing is in the sparse month that the frame does not hold: every
    stored entry sits under the keys of a cell with a value and is that
    value rounded to one decimal, and a cell that is NaN or outside the
    frame has no entry. *)
Theorem sparse_month_sound (frame : list (list (option Q)))
    (xk yk : string) (w : Q) :
  get (sparse_month frame) xk yk = Some w ->
  exists (row col : nat) (v : Q),
    cell_value frame row col = Some v /\
    xk = x_key_of col /\ yk = y_key_of row /\ w = Py.round1 v /\
    (forall row' col',
       cell_value frame row' col' = None ->
       get (sparse_month frame) (x_key_of col') (y_key_of row') = None).
Proof.
  intros Hget. unfold sparse_month in *.
  destruct (get_foldl_sound _ _ _ _ _ Hget)
    as [He | (row & col & v & Hin & Hx & Hy & Hw)];
    [by rewrite get_empty in He|].
  exists row, col, v. apply elem_of_valid_cells in Hin.
  do 4 (split; [done|]). intros row' col' Hnone.
  rewrite get_foldl_other; [apply get_empty|].
  intros r c u Hin'%elem_of_valid_cells [Hc%x_key_of_inj Hr%y_key_of_inj].
  subst. congruence.
Qed.

Lemma sparse_month_sound_witness :
  exists (row col : nat) (v : Q),
    cell_value Sample.frame row col = Some v /\
    "-198000" = x_key_of col /\ "1248000" = y_key_of row.
Proof.
  destruct (sparse_month_sound Sample.frame "-198000" "1248000"
              (Py.round1 12))
    as (row & col & v & Hv & Hx & Hy & _); [by vm_compute|].
  exists row, col, v. exact (conj Hv (conj Hx Hy)).
Defined.

Lemma store_cell_lookup (m : gmap string (gmap string Q)) (row col : nat)
    (v : Q) (xk : string) (inner : gmap string Q) :
  store_cell m (row, col, v) !! xk = Some inner ->
  inner <> ∅ \/ m !! xk = Some inner.
Proof.
  rewrite store_cell_eq. destruct (decide (xk = x_key_of col)) as [->|Hne].
  - rewrite lookup_insert_eq. intros [= <-]. left. apply insert_non_empty.
  - rewrite lookup_insert_ne by done. by right.
Qed.

Lemma foldl_store_inner_nonempty (l : list (nat * nat * Q))
    (m : gmap string (gmap string Q)) :
  (forall xk inner, m !! xk = Some inner -> inner <> ∅) ->
  forall xk inner, foldl store_cell m l !! xk = Some inner -> inner <> ∅.
Proof.
  revert m. induction l as [|[[row col] v] l IH]; intros m Hm; [done|].
  cbn [foldl]. apply IH. intros xk inner Hl.
  destruct (store_cell_lookup _ _ _ _ _ _ Hl) as [|Hl']; [done|].
  by eapply Hm.
Qed.

Lemma get_in_values (data : gmap string (gmap string Q))
    (xk yk : string) (v : Q) :
  get data xk yk = Some v -> v ∈ all_values data.
Proof.
  unfold get, all_values.
  destruct (data !! xk) as [inner|] eqn:Hx; [|done]. simpl.
  intros Hy. apply list_elem_of_bind. exists inner. split.
  - apply list_elem_of_fmap. exists (yk, v).
    split; [done|]. by apply elem_of_map_to_list.
  - apply list_elem_of_fmap. exists (xk, inner).
    split; [done|]. by apply elem_of_map_to_list.
Qed.

Lemma sparse_get_stored (frame : list (list (option Q)))
    (row col : nat) (v : Q) :
  cell_value frame row col = Some v ->
  get (sparse_month frame) (x_key_of col) (y_key_of row) = Some (Py.round1 v).
Proof.
  intros Hv. apply get_foldl_stored.
  - by apply elem_of_valid_cells.
  - intros v' Hv'%elem_of_valid_cells. congruence.
Qed.

(** The sparse month is the empty object exactly when the frame holds no
    value, and it never has an easting key with nothing under it: where a
    frame holds a value the month has values, so the 0 that
    generate_pngs_fixed.py keeps for breakpoints of data without values is
    never used on a month the extractor wrote. *)
Theorem sparse_month_empty_iff (frame : list (list (option Q))) :
  (sparse_month frame = ∅ <->
   forall row col, cell_value frame row col = None) /\
  (forall xk inner, sparse_month frame !! xk = Some inner -> inner <> ∅) /\
  (sparse_month frame <> ∅ -> all_values (sparse_month frame) <> []).
Proof.
  assert (Hiff : sparse_month frame = ∅ <->
                 forall row col, cell_value frame row col = None).
  { split.
    - intros He row col.
      destruct (cell_value frame row col) as [v|] eqn:Hv; [|done].
      apply sparse_get_stored in Hv. rewrite He, get_empty in Hv. done.
    - intros Hnone. unfold sparse_month.
      destruct (valid_cells frame) as [|[[row col] v] l] eqn:Hl; [done|].
      assert (Hin : (row, col, v) ∈ valid_cells frame)
        by (rewrite Hl; by left).
      apply elem_of_valid_cells in Hin. by rewrite Hnone in Hin. }
  split; [exact Hiff|]. split.
  - apply foldl_store_inner_nonempty. intros xk inner H.
    by rewrite lookup_empty in H.
  - intros Hne Hvals.
    destruct (valid_cells frame) as [|[[row col] v] l] eqn:Hl.
    + apply Hne. unfold sparse_month. by rewrite Hl.
    + assert (Hin : (row, col, v) ∈ valid_cells frame)
        by (rewrite Hl; by left).
      apply elem_of_valid_cells, sparse_get_stored, get_in_values in Hin.
      rewrite Hvals in Hin. by apply elem_of_nil in Hin.
Qed.

Lemma sparse_month_empty_iff_witness :
  all_values (sparse_month Sample.frame) <> [].
Proof.
  destruct (sparse_month_empty_iff Sample.frame) as (Hiff & _ & Hvals).
  apply Hvals. intros He.
  pose proof (proj1 Hiff He 0%nat 0%nat) as Hcell.
  vm_compute in Hcell. discriminate Hcell.
Defined.

End SparseContent.

(** ** Rounding *)

Lemma round_near (x : Q) :
  (- (1 # 2) <= x - inject_Z (Py.round x))%Q /\
  (x - inject_Z (Py.round x) <= 1 # 2)%Q.
Proof.
  pose proof (Qfloor_le x) as Hlo. pose proof (Qlt_floor x) as Hhi.
  rewrite inject_Z_plus in Hhi. change (inject_Z 1) with 1%Q in Hhi.
  unfold Py.round.
  destruct (Py.ltb (x - inject_Z (Qfloor x)) (1 # 2)) eqn:E1;
    [apply ltb_true in E1 | apply ltb_false in E1]; [split; lra|].
  destruct (Py.ltb (1 # 2) (x - inject_Z (Qfloor x))) eqn:E2;
    [apply ltb_true in E2 | apply ltb_false in E2].
  - rewrite inject_Z_plus. change (inject_Z 1) with 1%Q. split; lra.
  - destruct (Z.even (Qfloor x)); [split; lra|].
    rewrite inject_Z_plus. change (inject_Z 1) with 1%Q. split; lra.
Qed.

(** The key under which the generators look a coordinate up is the decimal
    string of a multiple of 1000 that lies within 500 of the coordinate:
    the lookup is a nearest-neighbour one with no interpolation. *)
Theorem snapped_is_nearest (v : Q) :
  (snapped v mod 1000 = 0) /\
  (- (500 # 1) <= v - inject_Z (snapped v))%Q /\
  (v - inject_Z (snapped v) <= 500 # 1)%Q /\
  nearest_key v = pretty (snapped v).
Proof.
  unfold snapped. split; [apply Z_mod_mult|].
  destruct (round_near (v / 1000)) as [Hlo Hhi].
  rewrite inject_Z_mult. change (inject_Z 1000) with (1000 # 1)%Q.
  assert (Hv : (v == v / 1000 * (1000 # 1))%Q) by field.
  set (q := (v / 1000)%Q) in *.
  set (r := inject_Z (Py.round q)) in *.
  repeat split; lra.
Qed.


(** ** Cells and nearest keys *)

Section Cells.
Import ExtractData.

Lemma floor_bounds (q : Q) :
  (inject_Z (Qfloor q) <= q)%Q /\ (q < inject_Z (Qfloor q) + 1)%Q.
Proof.
  split; [apply Qfloor_le|]. pose proof (Qlt_floor q) as H.
  rewrite inject_Z_plus in H. by change (inject_Z 1) with 1%Q in H.
Qed.






End Cells.

(** ** From the frame to the image *)

Section FrameToImage.
Import ExtractData.

Lemma sparse_get_none (frame : list (list (option Q))) (row col : nat) :
  cell_value frame row col = None ->
  get (sparse_month frame) (x_key_of col) (y_key_of row) = None.
Proof.
  intros Hnone. unfold sparse_month.
  rewrite get_foldl_other; [apply get_empty|].
  intros r c u Hin%elem_of_valid_cells [Hc%x_key_of_inj Hr%y_key_of_inj].
  subst. congruence.
Qed.

Lemma sparse_month_nonempty (frame : list (list (option Q)))
    (row col : nat) (v : Q) :
  cell_value frame row col = Some v -> sparse_month frame <> ∅.
Proof.
  intros Hv%sparse_get_stored He. rewrite He, get_empty in Hv. done.
Qed.

(** The extractor and the fixed generator composed.  A month whose frame
    holds no value is written as the empty object and the generator skips
    it.  Otherwise the image is saved, and a pixel whose reprojected
    coordinate has the keys of a cell of the frame is opaque in the palette
    colour of that cell's value rounded to one decimal when the cell holds
    a value, and transparent when the cell is NaN or outside the frame. *)
Theorem extracted_month_rendered (g : globals)
    (frame : list (list (option Q))) :
  1 < IMG_HEIGHT g -> 1 < IMG_WIDTH g ->
  ((forall row col, cell_value frame row col = None) ->
   PngsFixed.generate_temp_image g (Some (sparse_month frame)) = Skipped) /\
  ((exists row col v, cell_value frame row col = Some v) ->
   exists img,
     PngsFixed.generate_temp_image g (Some (sparse_month frame)) = Saved img /\
     forall (row col : nat) (x y : Q) (r c : nat),
       Z.of_nat row < IMG_HEIGHT g -> Z.of_nat col < IMG_WIDTH g ->
       wgs84_to_bng g (PngsFixed.lng_of g (Z.of_nat col))
         (PngsFixed.lat_of g (Z.of_nat row)) = Some (x, y) ->
       nearest_key x = x_key_of c -> nearest_key y = y_key_of r ->
       match cell_value frame r c with
       | Some v =>
           exists rr gg bb,
             get_color_for_temp (PFin (Py.round1 v)) (-10) 32
             = Some (rr, gg, bb) /\
             pixel_of img row col = Some (rr, gg, bb, 255)
       | None => pixel_of img row col = Some transparent
       end).
Proof.
  intros HH HW. split.
  - intros Hnone.
    assert (He : sparse_month frame = ∅).
    { unfold sparse_month.
      destruct (valid_cells frame) as [|[[row col] v] l] eqn:Hl; [done|].
      assert (Hin : (row, col, v) ∈ valid_cells frame)
        by (rewrite Hl; by left).
      apply elem_of_valid_cells in Hin. by rewrite Hnone in Hin. }
    rewrite He. unfold PngsFixed.generate_temp_image.
    by rewrite decide_True.
  - intros (r0 & c0 & v0 & Hv0).
    destruct (fixed_temp_image g HH HW (sparse_month frame)
                (sparse_month_nonempty frame r0 c0 v0 Hv0))
      as (img & Hsaved & _ & _ & Hpx).
    exists img. split; [done|].
    intros row col x y r c Hrow Hcol Ht Hx Hy.
    rewrite (Hpx row col Hrow Hcol). unfold PngsFixed.temp_at. rewrite Ht.
    cbn [mbind option_bind].
    change (lookup_nearest (sparse_month frame) x y)
      with (get (sparse_month frame) (nearest_key x) (nearest_key y)).
    rewrite Hx, Hy.
    destruct (cell_value frame r c) as [v|] eqn:Hv.
    + rewrite (sparse_get_stored frame r c v Hv). cbn [mbind option_bind].
      destruct (color_for_temp_some (PFin (Py.round1 v)))
        as ([[rr gg] bb] & Hc & _).
      exists rr, gg, bb. by rewrite Hc.
    + by rewrite (sparse_get_none frame r c Hv).
Qed.

Lemma extracted_month_rendered_witness :
  exists img,
    PngsFixed.generate_temp_image Sample.g_grid
      (Some (sparse_month Sample.frame)) = Saved img /\
    pixel_of img 0 1 = Some transparent /\
    exists rr gg bb,
      get_color_for_temp (PFin (Py.round1 12)) (-10) 32 = Some (rr, gg, bb) /\
      pixel_of img 1 1 = Some (rr, gg, bb, 255).
Proof.
  destruct (extracted_month_rendered Sample.g_grid Sample.frame)
    as [_ Hsome]; [by vm_compute | by vm_compute |].
  destruct Hsome as (img & Hsaved & Hpx).
  { exists 0%nat, 0%nat, 0%Q. reflexivity. }
  exists img. split; [exact Hsaved|]. split.
  - eapply (Hpx 0%nat 1%nat _ _ 0%nat 1%nat);
      [by vm_compute | by vm_compute | vm_compute; reflexivity
      | by vm_compute | by vm_compute].
  - eapply (Hpx 1%nat 1%nat _ _ 1%nat 1%nat);
      [by vm_compute | by vm_compute | vm_compute; reflexivity
      | by vm_compute | by vm_compute].
Defined.

End FrameToImage.

(** ** Decile bounds and decile colours *)

Section Deciles.
Import ProcessTemperature.

Lemma percentile_parts (a : list Q) (q : Q) :
  a <> [] -> (0 <= q)%Q -> (q <= 100)%Q ->
  let n := Z.of_nat (length (Py.sort a)) in
  let pos := (q / 100 * inject_Z (n - 1))%Q in
  exists (a_lo a_hi : Q),
    0 <= Qfloor pos <= n - 1 /\
    (0 <= pos - inject_Z (Qfloor pos))%Q /\
    (pos - inject_Z (Qfloor pos) < 1)%Q /\
    Py.sort a !! Z.to_nat (Qfloor pos) = Some a_lo /\
    Py.sort a !! Z.to_nat (Z.min (Qfloor pos + 1) (n - 1)) = Some a_hi /\
    (a_lo <= a_hi)%Q /\
    np_percentile a q = (a_lo + (a_hi - a_lo) * (pos - inject_Z (Qfloor pos)))%Q.
Proof.
  intros Hne Hq0 Hq1 n pos.
  assert (Hn : 1 <= n).
  { subst n. rewrite sort_length. destruct a; [done|]. simpl. lia. }
  assert (Hn1 : (0 <= inject_Z (n - 1))%Q).
  { change 0%Q with (inject_Z 0). rewrite <- Zle_Qle. lia. }
  assert (Hf : (0 <= q / 100)%Q /\ (q / 100 <= 1)%Q).
  { assert (Hq : (q / 100 * 100 == q)%Q) by field. split; lra. }
  destruct Hf as [Hf0 Hf1].
  destruct (scaled_within (q / 100) (inject_Z (n - 1)) Hf0 Hf1 Hn1)
    as [Hp0 Hp1].
  fold pos in Hp0, Hp1.
  destruct (floor_bounds pos) as [Hlo Hhi].
  assert (Hfl : 0 <= Qfloor pos <= n - 1).
  { split; [by apply (floor_ge _ 0)|].
    pose proof (Qfloor_resp_le _ _ Hp1) as H. by rewrite Qfloor_Z in H. }
  destruct (lookup_lt_is_Some_2 (Py.sort a) (Z.to_nat (Qfloor pos)))
    as [a_lo Ha_lo]; [subst n; lia|].
  destruct (lookup_lt_is_Some_2 (Py.sort a)
              (Z.to_nat (Z.min (Qfloor pos + 1) (n - 1))))
    as [a_hi Ha_hi]; [subst n; lia|].
  exists a_lo, a_hi. split; [done|]. split; [lra|]. split; [lra|].
  do 2 (split; [done|]). split.
  - apply (sort_sorted a (Z.to_nat (Qfloor pos))
             (Z.to_nat (Z.min (Qfloor pos + 1) (n - 1)))); [lia|done..].
  - unfold np_percentile. fold n. fold pos. by rewrite Ha_lo, Ha_hi.
Qed.

Lemma np_percentile_monotone (a : list Q) (q1 q2 : Q) :
  a <> [] -> (0 <= q1)%Q -> (q1 <= q2)%Q -> (q2 <= 100)%Q ->
  (np_percentile a q1 <= np_percentile a q2)%Q.
Proof.
  intros Hne H0 H12 H100.
  destruct (percentile_parts a q1 Hne ltac:(lra) ltac:(lra))
    as (l1 & h1 & Hf1 & Ht1 & Ht1' & Hl1 & Hh1 & Hle1 & ->).
  destruct (percentile_parts a q2 Hne ltac:(lra) ltac:(lra))
    as (l2 & h2 & Hf2 & Ht2 & Ht2' & Hl2 & Hh2 & Hle2 & ->).
  set (n := Z.of_nat (length (Py.sort a))) in *.
  assert (Hn1 : (0 <= inject_Z (n - 1))%Q).
  { change 0%Q with (inject_Z 0). rewrite <- Zle_Qle. lia. }
  assert (Hpos : (q1 / 100 * inject_Z (n - 1)
                  <= q2 / 100 * inject_Z (n - 1))%Q).
  { apply Qmult_le_compat_r; [|done].
    assert (Hq1 : (q1 / 100 * 100 == q1)%Q) by field.
    assert (Hq2 : (q2 / 100 * 100 == q2)%Q) by field. lra. }
  set (p1 := (q1 / 100 * inject_Z (n - 1))%Q) in *.
  set (p2 := (q2 / 100 * inject_Z (n - 1))%Q) in *.
  pose proof (Qfloor_resp_le _ _ Hpos) as Hfl.
  destruct (scaled_within (p1 - inject_Z (Qfloor p1)) (h1 - l1)
              Ht1 ltac:(lra) ltac:(lra)) as [Hs1 Hs1'].
  destruct (scaled_within (p2 - inject_Z (Qfloor p2)) (h2 - l2)
              Ht2 ltac:(lra) ltac:(lra)) as [Hs2 Hs2'].
  rewrite (Qmult_comm (h1 - l1)), (Qmult_comm (h2 - l2)).
  destruct (decide (Qfloor p1 = Qfloor p2)) as [Heq|Hneq].
  - rewrite Heq in Hl1, Hh1, Ht1, Ht1', Hs1, Hs1' |- *.
    rewrite Hl2 in Hl1. injection Hl1 as <-.
    rewrite Hh2 in Hh1. injection Hh1 as <-.
    assert (((p1 - inject_Z (Qfloor p2)) * (h2 - l2)
             <= (p2 - inject_Z (Qfloor p2)) * (h2 - l2))%Q)
      by (apply Qmult_le_compat_r; lra).
    lra.
  - assert (Hh1l2 : (h1 <= l2)%Q).
    { apply (sort_sorted a (Z.to_nat (Z.min (Qfloor p1 + 1) (n - 1)))
               (Z.to_nat (Qfloor p2))); [lia|done..]. }
    lra.
Qed.

Lemma decile_ranks_range (q : Q) :
  q ∈ decile_ranks -> (0 <= q)%Q /\ (q <= 100)%Q.
Proof.
  unfold decile_ranks. intros (k & -> & Hk%elem_of_seqZ)%list_elem_of_fmap.
  split.
  - change 0%Q with (inject_Z 0). rewrite <- Zle_Qle. lia.
  - change 100%Q with (inject_Z 100). rewrite <- Zle_Qle. lia.
Qed.

Lemma decile_ranks_rising (i j : nat) (qi qj : Q) :
  (i <= j)%nat -> decile_ranks !! i = Some qi -> decile_ranks !! j = Some qj ->
  (qi <= qj)%Q.
Proof.
  unfold decile_ranks. rewrite !list_lookup_fmap.
  intros Hij Hi Hj.
  destruct (seqZ 1 9 !! i) as [ki|] eqn:Hki; [|done].
  destruct (seqZ 1 9 !! j) as [kj|] eqn:Hkj; [|done].
  apply lookup_seqZ in Hki as [-> _]. apply lookup_seqZ in Hkj as [-> _].
  simpl in Hi, Hj. injection Hi as <-. injection Hj as <-.
  rewrite <- Zle_Qle. lia.
Qed.

Lemma decile_bounds_rising (a : list Q) :
  a <> [] -> nondecreasing (np_percentile a <$> decile_ranks).
Proof.
  intros Hne i j x y Hij. rewrite !list_lookup_fmap.
  destruct (decile_ranks !! i) as [qi|] eqn:Hi; [|done].
  destruct (decile_ranks !! j) as [qj|] eqn:Hj; [|done].
  simpl. intros [= <-] [= <-].
  destruct (decile_ranks_range qi) as [? ?]; [by eapply list_elem_of_lookup_2|].
  destruct (decile_ranks_range qj) as [? ?]; [by eapply list_elem_of_lookup_2|].
  apply np_percentile_monotone; [done..| |done].
  by apply (decile_ranks_rising i j).
Qed.

Lemma color_idx_monotone (bounds : list Q) (v1 v2 : Q) :
  nondecreasing bounds -> (v1 <= v2)%Q ->
  (color_idx bounds v1 <= color_idx bounds v2)%nat.
Proof.
  intros Hs Hv.
  destruct (color_idx bounds v1) as [|k] eqn:Hk; [lia|].
  pose proof (color_idx_le_length bounds v1) as Hlen. rewrite Hk in Hlen.
  destruct (lookup_lt_is_Some_2 bounds k) as [b Hb]; [lia|].
  destruct (Qlt_le_dec b v1) as [Hlt|Hle].
  - assert (k < color_idx bounds v2)%nat; [|lia].
    apply (color_idx_promoted bounds v2 k b Hb). lra.
  - pose proof (color_idx_tie bounds v1 k b Hs Hb Hle). lia.
Qed.

End Deciles.

Section DecileColors.
Import ProcessTemperature.

Lemma percentile_above_min (a : list Q) (q m : Q) :
  a <> [] -> (0 <= q)%Q -> (q <= 100)%Q ->
  (forall w, w ∈ a -> (m <= w)%Q) -> (m <= np_percentile a q)%Q.
Proof.
  intros Hne H0 H100 Hmin.
  destruct (percentile_parts a q Hne H0 H100)
    as (lo & hi & _ & Ht & Ht' & Hlo & _ & Hle & ->).
  assert (Hm : (m <= lo)%Q).
  { apply Hmin. rewrite <- (sort_perm a). by eapply list_elem_of_lookup_2. }
  set (t := (q / 100 * inject_Z (Z.of_nat (length (Py.sort a)) - 1)
             - inject_Z (Qfloor (q / 100 * inject_Z
                                   (Z.of_nat (length (Py.sort a)) - 1))))%Q)
    in *.
  destruct (scaled_within t (hi - lo) Ht ltac:(lra) ltac:(lra)) as [Hs _].
  rewrite (Qmult_comm (hi - lo)). lra.
Qed.

Lemma percentile_below_max (a : list Q) (q m : Q) :
  a <> [] -> (0 <= q)%Q -> (q <= 100)%Q ->
  (forall w, w ∈ a -> (w <= m)%Q) -> (np_percentile a q <= m)%Q.
Proof.
  intros Hne H0 H100 Hmax.
  destruct (percentile_parts a q Hne H0 H100)
    as (lo & hi & _ & Ht & Ht' & _ & Hhi & Hle & ->).
  assert (Hm : (hi <= m)%Q).
  { apply Hmax. rewrite <- (sort_perm a). by eapply list_elem_of_lookup_2. }
  set (t := (q / 100 * inject_Z (Z.of_nat (length (Py.sort a)) - 1)
             - inject_Z (Qfloor (q / 100 * inject_Z
                                   (Z.of_nat (length (Py.sort a)) - 1))))%Q)
    in *.
  destruct (scaled_within t (hi - lo) Ht ltac:(lra) ltac:(lra)) as [_ Hs].
  rewrite (Qmult_comm (hi - lo)). lra.
Qed.

(** The nine decile bounds [create_temp_rgb_array] takes from the valid
    values of a frame are in rising order and lie between the smallest and
    the largest of these values. *)
Theorem decile_bounds_in_order (a : list Q) (lo hi : Q) :
  a <> [] ->
  (forall w, w ∈ a -> (lo <= w)%Q /\ (w <= hi)%Q) ->
  let bounds := np_percentile a <$> decile_ranks in
  length bounds = 9%nat /\ nondecreasing bounds /\
  (forall b, b ∈ bounds -> (lo <= b)%Q /\ (b <= hi)%Q).
Proof.
  intros Hne Hrange bounds. split; [done|].
  split; [by apply decile_bounds_rising|].
  intros b (q & -> & Hq)%list_elem_of_fmap.
  destruct (decile_ranks_range q Hq) as [H0 H100]. split.
  - apply percentile_above_min; [done..|]. intros w Hw. by apply Hrange.
  - apply percentile_below_max; [done..|]. intros w Hw. by apply Hrange.
Qed.

Lemma decile_bounds_in_order_witness :
  nondecreasing (np_percentile [30; 0; 12]%Q <$> decile_ranks).
Proof.
  destruct (decile_bounds_in_order [30; 0; 12]%Q 0 30) as (_ & Hs & _);
    [done| |exact Hs].
  intros w Hw. repeat (apply elem_of_cons in Hw as [-> | Hw]);
    [by vm_compute..|]. by apply elem_of_nil in Hw.
Defined.

Context (to_rgb : string -> Q * Q * Q).

Lemma colored_valid (tv : list (list (option Q))) (colors : list string)
    (row col : nat) (vals : list (option Q)) (v : Q) :
  tv !! row = Some vals -> vals !! col = Some (Some v) ->
  pixel_of (colored to_rgb tv colors) row col
  = Some (cell_rgb to_rgb
            (np_percentile (temp_valid tv) <$> decile_ranks) colors (Some v)).
Proof.
  intros Hr Hc. unfold pixel_of, colored.
  rewrite list_lookup_fmap, Hr. simpl.
  by rewrite list_lookup_fmap, Hc.
Qed.

Lemma temp_valid_elem (tv : list (list (option Q)))
    (row col : nat) (vals : list (option Q)) (v : Q) :
  tv !! row = Some vals -> vals !! col = Some (Some v) -> v ∈ temp_valid tv.
Proof.
  intros Hr Hc. unfold temp_valid. apply list_elem_of_omap.
  exists (Some v). split; [|done].
  apply list_elem_of_join. exists vals.
  split; by eapply list_elem_of_lookup_2.
Qed.

(** The decile image follows the values.  With a palette of at least ten
    colours every cell of the frame that holds a value is painted, in the
    mirrored row, with the palette colour of its decile index; a cell that
    is not colder than another never gets a lower index, and the coldest
    cell of the frame gets the first colour. *)
Theorem decile_image_colors (tv : list (list (option Q)))
    (colors : list string) (row col : nat) (vals : list (option Q)) (v : Q) :
  (10 <= length colors)%nat ->
  tv !! row = Some vals -> vals !! col = Some (Some v) ->
  let bounds := np_percentile (temp_valid tv) <$> decile_ranks in
  length (create_temp_rgb_array to_rgb tv colors) = length tv /\
  (exists c,
     colors !! color_idx bounds v = Some c /\
     pixel_of (create_temp_rgb_array to_rgb tv colors)
       (length tv - 1 - row) col = Some (to_rgb c)) /\
  (forall v1 v2, (v1 <= v2)%Q ->
     (color_idx bounds v1 <= color_idx bounds v2)%nat) /\
  ((forall w, w ∈ temp_valid tv -> (v <= w)%Q) -> color_idx bounds v = 0%nat).
Proof.
  intros Hcol Hr Hc bounds.
  pose proof (temp_valid_elem tv row col vals v Hr Hc) as Hin.
  assert (Hne : temp_valid tv <> []).
  { intros Hnil. rewrite Hnil in Hin. by apply elem_of_nil in Hin. }
  pose proof (decile_bounds_rising (temp_valid tv) Hne) as Hs.
  fold bounds in Hs.
  pose proof (lookup_lt_Some _ _ _ Hr) as Hrow.
  rewrite (create_flipped to_rgb tv colors Hne).
  split; [|split; [|split]].
  - unfold flipud. by rewrite length_reverse, colored_length.
  - pose proof (color_idx_le_length bounds v) as Hidx.
    assert (Hlen : length bounds = 9%nat) by done.
    destruct (lookup_lt_is_Some_2 colors (color_idx bounds v)) as [c Hcv];
      [lia|].
    exists c. split; [done|]. unfold pixel_of.
    rewrite flipud_row by (rewrite colored_length; lia).
    rewrite colored_length.
    replace (length tv - 1 - (length tv - 1 - row))%nat with row by lia.
    pose proof (colored_valid tv colors row col vals v Hr Hc) as Hp.
    unfold pixel_of in Hp. rewrite Hp. unfold cell_rgb. fold bounds.
    by rewrite Hcv.
  - intros v1 v2 Hv. by apply color_idx_monotone.
  - intros Hmin.
    assert (Hb0 : exists b, bounds !! 0%nat = Some b) by (by eexists).
    destruct Hb0 as [b Hb].
    assert (Hvb : (v <= b)%Q).
    { assert (Hbin : b ∈ bounds) by (by eapply list_elem_of_lookup_2).
      apply list_elem_of_fmap in Hbin as (q & -> & Hq).
      destruct (decile_ranks_range q Hq) as [H0 H100].
      by apply percentile_above_min. }
    pose proof (color_idx_tie bounds v 0 b Hs Hb Hvb). lia.
Qed.

End DecileColors.

Lemma decile_image_colors_witness :
  exists c,
    ProcessTemperature.TEMP_COLORS
      !! ProcessTemperature.color_idx
           (ProcessTemperature.np_percentile
              (ProcessTemperature.temp_valid Sample.frame)
              <$> ProcessTemperature.decile_ranks) 30 = Some c /\
    pixel_of (ProcessTemperature.create_temp_rgb_array
                ProcessTemperature.to_rgb_hex Sample.frame
                ProcessTemperature.TEMP_COLORS) 0 0
    = Some (ProcessTemperature.to_rgb_hex c).
Proof.
  destruct (decile_image_colors ProcessTemperature.to_rgb_hex Sample.frame
              ProcessTemperature.TEMP_COLORS 1 0 [Some 30%Q; Some 12%Q] 30)
    as (_ & Hc & _); [simpl; lia | reflexivity | reflexivity | exact Hc].
Defined.

(** ** How the tertile breakpoints split the values *)

Section Shares.
Context {A : Type} (P : A -> Prop) `{!forall x, Decision (P x)}.

Lemma filter_none (l : list A) : Forall (fun x => ~ P x) l -> filter P l = [].
Proof.
  induction 1 as [|x l Hx _ IH]; [done|].
  by rewrite filter_cons_False.
Qed.

Lemma filter_all (l : list A) : Forall P l -> filter P l = l.
Proof.
  induction 1 as [|x l Hx _ IH]; [done|].
  rewrite filter_cons_True by done. by rewrite IH.
Qed.

Lemma count_at_most (s : list A) (k : nat) :
  (forall i x, (k <= i)%nat -> s !! i = Some x -> ~ P x) ->
  (length (filter P s) <= k)%nat.
Proof.
  intros Hhigh. rewrite <- (take_drop k s), filter_app, length_app.
  rewrite (filter_none (drop k s)).
  - pose proof (length_filter P (take k s)). rewrite length_take in *.
    simpl. lia.
  - apply Forall_lookup. intros i x Hi. rewrite lookup_drop in Hi.
    apply (Hhigh (k + i)%nat x); [lia|done].
Qed.

Lemma count_at_least (s : list A) (k : nat) :
  (forall i x, (k <= i)%nat -> s !! i = Some x -> P x) ->
  (length s - k <= length (filter P s))%nat.
Proof.
  intros Hhigh. rewrite <- (take_drop k s) at 2.
  rewrite filter_app, length_app. rewrite (filter_all (drop k s)).
  - rewrite length_drop. lia.
  - apply Forall_lookup. intros i x Hi. rewrite lookup_drop in Hi.
    apply (Hhigh (k + i)%nat x); [lia|done].
Qed.

End Shares.

(** The breakpoints of generate_pngs_fixed.py split the values of the data
    unevenly: at most a third of the values get level 0 and at least a
    third get level 2, because a value equal to a breakpoint goes up. *)
Theorem tertile_shares (data : gmap string (gmap string Q)) :
  all_values data <> [] ->
  exists b33 b66,
    PngsFixed.breakpoints data = Some (b33, b66) /\
    (3 * length (filter (fun v => tertile_level v b33 b66 = 0%Z)
                   (all_values data))
     <= length (all_values data))%nat /\
    (length (all_values data)
     <= 3 * length (filter (fun v => tertile_level v b33 b66 = 2%Z)
                      (all_values data)))%nat.
Proof.
  intros Hne. unfold PngsFixed.breakpoints.
  set (values := Py.sort (all_values data)).
  assert (Hperm : values ≡ₚ all_values data) by apply sort_perm.
  assert (Hn : 0 < Z.of_nat (length values)).
  { rewrite Hperm. destruct (all_values data); [done|]. simpl. lia. }
  replace (0 <? Z.of_nat (length values)) with true
    by (symmetry; by apply Z.ltb_lt).
  set (n := Z.of_nat (length values)) in *.
  assert (H33 : 0 <= n `div` 3 < n).
  { split; [apply Z.div_pos; lia|]. apply Z.div_lt_upper_bound; lia. }
  assert (H66 : 0 <= (2 * n) `div` 3 < n).
  { split; [apply Z.div_pos; lia|]. apply Z.div_lt_upper_bound; lia. }
  destruct (index_in_range values (n `div` 3) H33) as [b33 Hb33].
  destruct (index_in_range values ((2 * n) `div` 3) H66) as [b66 Hb66].
  rewrite Hb33, Hb66. exists b33, b66. split; [done|].
  rewrite <- !Hperm.
  apply index_nonneg_lookup in Hb33; [|lia].
  apply index_nonneg_lookup in Hb66; [|lia].
  pose proof (sort_sorted (all_values data)) as Hs. fold values in Hs.
  assert (Hle : (b33 <= b66)%Q).
  { apply (Hs (Z.to_nat (n `div` 3)) (Z.to_nat ((2 * n) `div` 3)));
      [|done..].
    apply Z2Nat.inj_le; [lia..|]. apply Z.div_le_mono; lia. }
  split.
  - assert (Hc : (length (filter (fun v => tertile_level v b33 b66 = 0%Z) values)
                  <= Z.to_nat (n `div` 3))%nat).
    { apply count_at_most. intros i x Hi Hx. unfold tertile_level.
      pose proof (Hs _ _ _ _ Hi Hb33 Hx).
      cmp_cases; first [lia | lra]. }
    pose proof (Z.mul_div_le n 3 ltac:(lia)). lia.
  - assert (Hc : (length values - Z.to_nat ((2 * n) `div` 3)
                  <= length (filter (fun v => tertile_level v b33 b66 = 2%Z)
                               values))%nat).
    { apply count_at_least. intros i x Hi Hx. unfold tertile_level.
      pose proof (Hs _ _ _ _ Hi Hb66 Hx).
      cmp_cases; first [lia | lra]. }
    pose proof (Z.mul_div_le (2 * n) 3 ltac:(lia)). lia.
Qed.

Lemma tertile_shares_witness :
  exists b33 b66,
    PngsFixed.breakpoints Sample.rain = Some (b33, b66) /\
    (3 * length (filter (fun v => tertile_level v b33 b66 = 0%Z)
                   (all_values Sample.rain))
     <= length (all_values Sample.rain))%nat.
Proof.
  destruct (tertile_shares Sample.rain sample_rain_values)
    as (b33 & b66 & H & Hlow & _).
  exists b33, b66. exact (conj H Hlow).
Defined.

(** ** The image of generate_overlay_images.py *)

Lemma overlay_temp_cell (v : pyfloat) :
  exists p, OverlayImages.temp_cell v = Some p /\
    (v = NaN -> p = transparent) /\
    (v <> NaN -> exists r gr b, (r, gr, b) ∈ TEMP_COLORS /\ p = (r, gr, b, 255)).
Proof.
  assert (Hdec : v = NaN \/ v <> NaN) by (destruct v; auto).
  destruct Hdec as [->|Hv].
  - exists transparent. by repeat split.
  - destruct (temp_index_clamped v) as (c & _ & H0 & H1 & _ & Hov).
    destruct (int_scaled c 10 ltac:(lia) H0 H1) as [_ Hr].
    destruct (palette_index_some (Z.min (Qfloor (c * inject_Z 10)) 9)
                ltac:(lia)) as ([[r gr] b] & Hcol & _ & Hin).
    exists (r, gr, b, 255).
    assert (Hcell : OverlayImages.temp_cell v = Some (r, gr, b, 255)).
    { destruct v; try done; unfold OverlayImages.temp_cell;
        rewrite Hov; cbn [mbind option_bind]; by rewrite Hcol. }
    split; [done|]. split; [done|]. intros _. by exists r, gr, b.
Qed.

(** [process_temp] raises on no cell, not even on an infinite one: its
    image has the rows of the array in the order of the array, a NaN cell
    is transparent and every other cell is opaque in a colour of the
    palette. *)
Theorem overlay_temp_image (temp_data : list (list pyfloat)) :
  exists img,
    OverlayImages.process_temp temp_data = Some img /\
    length img = length temp_data /\
    forall (i j : nat) (row : list pyfloat) (v : pyfloat),
      temp_data !! i = Some row -> row !! j = Some v ->
      (v = NaN -> pixel_of img i j = Some transparent) /\
      (v <> NaN ->
       exists r gr b,
         (r, gr, b) ∈ TEMP_COLORS /\ pixel_of img i j = Some (r, gr, b, 255)).
Proof.
  assert (Hrow : forall row : list pyfloat,
            is_Some (mapM OverlayImages.temp_cell row)).
  { intros row. apply mapM_is_Some, Forall_forall. intros v _.
    destruct (overlay_temp_cell v) as (p & Hp & _). by exists p. }
  destruct (mapM_is_Some_2 (mapM OverlayImages.temp_cell) temp_data)
    as [img Himg].
  { apply Forall_forall. intros row _. apply Hrow. }
  exists img. unfold OverlayImages.process_temp. split; [done|].
  apply mapM_Some in Himg.
  split; [symmetry; by eapply Forall2_length|].
  intros i j row v Hi Hj.
  destruct (Forall2_lookup_l _ _ _ i row Himg Hi) as (line & Hline & Hl).
  apply mapM_Some in Hl.
  destruct (Forall2_lookup_l _ _ _ j v Hl Hj) as (p & Hp & Hcell).
  unfold pixel_of. rewrite Hline. simpl. rewrite Hp.
  destruct (overlay_temp_cell v) as (p' & Hp' & Hnan & Hval).
  rewrite Hcell in Hp'. injection Hp' as <-. split.
  - intros Hv. by rewrite (Hnan Hv).
  - intros Hv. destruct (Hval Hv) as (r & gr & b & Hin & ->).
    by exists r, gr, b.
Qed.
